(** * The JNI adapter of the whisper Android library (jni.c)

    A shallow embedding of [android/whisperlib/src/main/jni/whisper/jni.c]:
    the streaming adapter over a managed [java.io.InputStream], the
    asset-backed loader, the three initialisation entry points and
    [fullTranscribe].

    The adapter is glue between three parties that are not part of the file:
    the Java runtime (reached through [JNIEnv]), the Android NDK (asset
    manager, log) and the whisper inference library.  Each of them is
    modelled as an interface ([InputStream], [WhisperLib]) or as a small
    executable model of its documented behaviour, and the calls the
    statements are about are recorded in a trace of boundary events (see
    [event] for which). *)

From Stdlib Require Import ZArith List String Bool Lia.
From Stdlib Require Import Strings.Byte.
From stdpp Require Import base option list strings gmap fin_maps.

Local Open Scope Z_scope.

(* ================================================================== *)
(** ** Machine integers *)
(* ================================================================== *)

(** The Android ABIs differ in the width of [size_t] and of pointers:
    armeabi-v7a and x86 are ILP32, arm64-v8a and x86_64 are LP64.  [jint] is
    32 bits and [jlong] 64 bits on all of them. *)
Inductive ABI := ILP32 | LP64.

Definition size_bits (abi : ABI) : Z :=
  match abi with ILP32 => 32 | LP64 => 64 end.

(** Conversion to an unsigned, respectively signed (two's complement),
    integer type of [w] bits. *)
Definition wrap_unsigned (w z : Z) : Z := z mod 2 ^ w.

Definition wrap_signed (w z : Z) : Z :=
  let u := z mod 2 ^ w in
  if u <? 2 ^ (w - 1) then u else u - 2 ^ w.

Definition to_size_t (abi : ABI) (z : Z) : Z := wrap_unsigned (size_bits abi) z.
Definition to_jint (z : Z) : Z := wrap_signed 32 z.
(** [(jlong) context]: the address, zero-extended where pointers have 32
    bits (clang), read as a signed number of 64 bits. *)
Definition to_jlong (z : Z) : Z := wrap_signed 64 z.
(** [(struct whisper_context * ) handle]: an integer converted to a pointer. *)
Definition to_pointer (abi : ABI) (z : Z) : Z := wrap_unsigned (size_bits abi) z.

Definition size_t_range (abi : ABI) (z : Z) : Prop := 0 ≤ z < 2 ^ size_bits abi.
Definition jint_range (z : Z) : Prop := - 2 ^ 31 ≤ z < 2 ^ 31.
Definition pointer_range (abi : ABI) (z : Z) : Prop := 0 ≤ z < 2 ^ size_bits abi.

Definition NULL : Z := 0.

(** A [jfloat] is carried as its IEEE-754 binary32 bit pattern: the adapter
    only moves samples around and stores four literals. *)
Definition jfloat : Type := Z.
Definition f32_0_0 : jfloat := 0x00000000.   (* 0.0f  *)
Definition f32_2_4 : jfloat := 0x4019999A.   (* 2.4f  *)
Definition f32_m1_0 : jfloat := 0xBF800000.  (* -1.0f *)
Definition f32_0_6 : jfloat := 0x3F19999A.   (* 0.6f  *)

(* ================================================================== *)
(** ** whisper.h: the types the adapter fills in or passes on *)
(* ================================================================== *)

Inductive whisper_sampling_strategy :=
  | WHISPER_SAMPLING_GREEDY
  | WHISPER_SAMPLING_BEAM_SEARCH.

(** [struct whisper_full_params], with the members jni.c assigns spelled
    out.  The members it never touches (thresholds of the token timestamps,
    prompt, callbacks, beam search, grammar) stay whatever
    [whisper_full_default_params] made them: [other_params]. *)
Record whisper_full_params {R : Type} := {
  strategy : whisper_sampling_strategy;
  print_realtime : bool;
  print_progress : bool;
  print_timestamps : bool;
  print_special : bool;
  translate : bool;
  language : string;
  n_threads : Z;
  offset_ms : Z;
  duration_ms : Z;
  no_context : bool;
  no_timestamps : bool;
  single_segment : bool;
  token_timestamps : bool;
  max_len : Z;
  max_tokens : Z;
  split_on_word : bool;
  audio_ctx : Z;
  n_max_text_ctx : Z;
  debug_mode : bool;
  tdrz_enable : bool;
  detect_language : bool;
  temperature : jfloat;
  temperature_inc : jfloat;
  entropy_thold : jfloat;
  logprob_thold : jfloat;
  no_speech_thold : jfloat;
  suppress_blank : bool;
  suppress_nst : bool;
  greedy_best_of : Z;
  other_params : R;
}.
Arguments whisper_full_params : clear implicits.

(** [struct whisper_timings]. *)
Record whisper_timings := {
  sample_ms : jfloat;
  encode_ms : jfloat;
  decode_ms : jfloat;
  batchd_ms : jfloat;
  prompt_ms : jfloat;
}.

(** What [whisper_init_with_params] does with a [whisper_model_loader] is
    the library's business: it calls [read], [eof] and [close] as often and
    in whatever order it likes, looks at what they gave, and finally returns
    a context pointer (possibly NULL) and leaves the library in a new state.
    Such a run is a finite tree of callback invocations. *)
Inductive loader_prog (N : Type) :=
  | Finish (context : Z) (n' : N)
  | CallRead (read_size : Z) (k : list byte → Z → loader_prog N)
  | CallEof (k : bool → loader_prog N)
  | CallClose (k : loader_prog N).
Arguments Finish {N}.
Arguments CallRead {N}.
Arguments CallEof {N}.
Arguments CallClose {N}.

(** The inference library, as far as jni.c calls it: [lib_f] is what the
    library's [whisper_f] computes.  Contexts live in the library's own
    state [native] and are named by their address. *)
Class WhisperLib := {
  native : Type;
  params_rest : Type;
  whisper_context_params : Type;
  lib_context_default_params : whisper_context_params;
  lib_full_default_params :
    whisper_sampling_strategy → whisper_full_params params_rest;
  lib_init_from_file_with_params :
    string → whisper_context_params → native → Z * native;
  lib_init_with_params : whisper_context_params → native → loader_prog native;
  lib_free : Z → native → native;
  lib_reset_timings : Z → native → native;
  lib_full :
    Z → whisper_full_params params_rest → list jfloat → Z → native → Z * native;
  lib_get_timings : Z → native → whisper_timings;
  lib_full_n_segments : Z → native → Z;
  lib_full_get_segment_text : Z → Z → native → option string;
}.

(* ================================================================== *)
(** ** The managed side: java.io.InputStream and the Java heap *)
(* ================================================================== *)

(** The three methods of [java.io.InputStream] that matter here.  The
    stream is arbitrary managed code: [available] may answer any [int],
    [read b off len] may answer any [int] and leave any bytes in [b]. *)
Class InputStream := {
  stream : Type;
  stream_available : stream → Z * stream;
  stream_read : stream → list byte → Z → Z → Z * list byte * stream;
  stream_close : stream → stream;
}.

Inductive jmethodID := MID_available | MID_read | MID_close.

Definition jref : Type := positive.

Inductive jvalue := VInt (i : Z) | VRef (r : jref).

(** Modes of [Release<Type>ArrayElements]. *)
Definition JNI_COMMIT : Z := 1.
Definition JNI_ABORT : Z := 2.

(** android/log.h *)
Inductive android_LogPriority := ANDROID_LOG_INFO | ANDROID_LOG_WARN.

(** Floating-point arguments of a log line are kept symbolic. *)
Inductive fexpr := FVal (f : jfloat) | FAdd (a b : fexpr).

Inductive log_arg := ArgInt (z : Z) | ArgStr (s : string) | ArgDouble (e : fexpr).

(** The line feed that ends a format string in the C source. *)
Definition line_feed : string := String (Ascii.ascii_of_nat 10) "".

(** Why a call does not return to its caller. *)
Inductive abort_reason :=
  | NegativeArraySize (length : Z)   (* New<Type>Array with a negative length *)
  | BadReference (r : jref)          (* not a live object of the expected class *)
  | BadMethodID.                     (* NULL or ill-matched method id *)

Inductive outcome (A : Type) :=
  | Returned (a : A)
  | Aborted (why : abort_reason).
Arguments Returned {A}.
Arguments Aborted {A}.

Section Model.
Context {W : WhisperLib} {IS : InputStream}.

Inductive jobject :=
  | JInputStream (s : stream)
  | JByteArray (elems : list byte)
  | JFloatArray (elems : list jfloat).

(** The calls across the boundary that the trace records, in the order
    they happened: log lines, the methods of the managed stream, the
    opening and closing of an asset, the library's initialisations,
    [whisper_reset_timings], [whisper_full] and the release of a float
    array.  Every call of one of these is recorded.  The other calls are
    not: [whisper_free], the reads of the library's state
    ([whisper_get_timings], [whisper_full_n_segments],
    [whisper_full_get_segment_text]) and the other functions of [JNIEnv]
    (strings, classes and method ids, byte arrays, the elements and the
    length of a float array). *)
Inductive event :=
  | Log (prio : android_LogPriority) (fmt : string) (args : list log_arg)
  | StreamCall (obj : jref) (mid : jmethodID) (args : list jvalue)
  | AssetOpen (path : string)
  | AssetClose
  | WhisperInitFromFile (path : string)
  | WhisperInitWithParams
  | WhisperResetTimings (context : Z)
  | WhisperFull (context : Z) (params : whisper_full_params params_rest)
      (samples : list jfloat) (n_samples : Z)
  | ReleaseFloatArray (array : jref) (mode : Z).

Record world := World {
  w_heap : gmap jref jobject;           (* managed objects *)
  w_assets : gmap string (list byte);   (* the packaged assets, by path *)
  w_native : native;                    (* state of the inference library *)
  w_trace : list event;
}.

Definition set_heap (h : gmap jref jobject) (w : world) : world :=
  {| w_heap := h; w_assets := w_assets w; w_native := w_native w;
     w_trace := w_trace w |}.
Definition set_native (n : native) (w : world) : world :=
  {| w_heap := w_heap w; w_assets := w_assets w; w_native := n;
     w_trace := w_trace w |}.
Definition add_event (e : event) (w : world) : world :=
  {| w_heap := w_heap w; w_assets := w_assets w; w_native := w_native w;
     w_trace := w_trace w ++ [e] |}.

(** *** Calls across the boundary: state and abort *)

Definition jni (A : Type) : Type := world → outcome (A * world).

Global Instance jni_ret : MRet jni := λ A a w, Returned (a, w).

Global Instance jni_bind : MBind jni := λ A B k m w,
  match m w with
  | Returned (a, w') => k a w'
  | Aborted why => Aborted why
  end.

Definition abort {A} (why : abort_reason) : jni A := λ _, Aborted why.
Definition emit (e : event) : jni unit := λ w, Returned (tt, add_event e w).
Definition get_native : jni native := λ w, Returned (w_native w, w).
Definition put_native (n : native) : jni unit := λ w, Returned (tt, set_native n w).

(* ------------------------------------------------------------------ *)
(** *** android/log.h *)

Definition LOGI (fmt : string) (args : list log_arg) : jni unit :=
  emit (Log ANDROID_LOG_INFO fmt args).
Definition LOGW (fmt : string) (args : list log_arg) : jni unit :=
  emit (Log ANDROID_LOG_WARN fmt args).

(* ------------------------------------------------------------------ *)
(** *** The functions of [JNIEnv] the adapter calls

    Java strings are immutable and carried by value: a [jstring] is its
    characters, or the null reference.  Arrays and the input stream are
    objects of the heap, named by reference. *)

Definition jstring : Type := option string.

Definition GetStringUTFChars (s : string) : jni string := mret s.
Definition ReleaseStringUTFChars (s chars : string) : jni unit := mret tt.
(** A new string is kept as the bytes of the C string it was made from:
    the decoding of these bytes (Modified UTF-8) into the characters of a
    [java.lang.String] is not modelled. *)
Definition NewStringUTF (bytes : string) : jni jstring := mret (Some bytes).

Inductive jclass := Class_InputStream | Class_byte_array | Class_float_array.

Definition GetObjectClass (obj : jref) : jni jclass := λ w,
  match w_heap w !! obj with
  | Some (JInputStream _) => Returned (Class_InputStream, w)
  | Some (JByteArray _) => Returned (Class_byte_array, w)
  | Some (JFloatArray _) => Returned (Class_float_array, w)
  | None => Aborted (BadReference obj)
  end.

(** [GetMethodID]: NULL ([None]) when the class has no such method. *)
Definition GetMethodID (cls : jclass) (name sig : string) : option jmethodID :=
  match cls with
  | Class_InputStream =>
      if (String.eqb name "available" && String.eqb sig "()I")%bool then Some MID_available
      else if (String.eqb name "read" && String.eqb sig "([BII)I")%bool then Some MID_read
      else if (String.eqb name "close" && String.eqb sig "()V")%bool then Some MID_close
      else None
  | _ => None
  end.

(** A Java [int] method of the input stream [obj].  [read] gets its array
    by reference and leaves its bytes there; whatever the method does, the
    array keeps its length and the answer is an [int]. *)
Definition CallIntMethod (obj : jref) (mid : option jmethodID) (args : list jvalue)
  : jni Z := λ w,
  match w_heap w !! obj with
  | Some (JInputStream s) =>
      match mid, args with
      | Some MID_available, [] =>
          let '(n, s') := stream_available s in
          Returned (to_jint n,
                    set_heap (<[obj := JInputStream s']> (w_heap w))
                      (add_event (StreamCall obj MID_available args) w))
      | Some MID_read, [VRef b; VInt off; VInt len] =>
          match w_heap w !! b with
          | Some (JByteArray elems) =>
              let '(n, elems', s') := stream_read s elems off len in
              Returned (to_jint n,
                        set_heap (<[b := JByteArray (resize (length elems) x00 elems')]>
                                    (<[obj := JInputStream s']> (w_heap w)))
                          (add_event (StreamCall obj MID_read args) w))
          | _ => Aborted (BadReference b)
          end
      | _, _ => Aborted BadMethodID
      end
  | _ => Aborted (BadReference obj)
  end.

(** A negative length gives no array: the runtime raises
    [NegativeArraySizeException] (ART aborts the process).  A caller that
    went on regardless would hold a null array, and [inputStreamRead] would
    then ask [memcpy] for [(size_t) len] bytes from it, 2^31 or more: the
    call does not come back either way. *)
Definition NewByteArray (len : Z) : jni jref := λ w,
  if len <? 0 then Aborted (NegativeArraySize len)
  else
    let r := fresh (dom (w_heap w)) in
    Returned (r, set_heap (<[r := JByteArray (replicate (Z.to_nat len) x00)]> (w_heap w)) w).

Definition GetByteArrayElements (array : jref) : jni (list byte) := λ w,
  match w_heap w !! array with
  | Some (JByteArray elems) => Returned (elems, w)
  | _ => Aborted (BadReference array)
  end.

Definition ReleaseByteArrayElements (array : jref) (elems : list byte) (mode : Z)
  : jni unit := λ w,
  if mode =? JNI_ABORT then Returned (tt, w)
  else Returned (tt, set_heap (<[array := JByteArray elems]> (w_heap w)) w).

Definition DeleteLocalRef (r : jref) : jni unit := λ w,
  Returned (tt, set_heap (delete r (w_heap w)) w).

Definition GetFloatArrayElements (array : jref) : jni (list jfloat) := λ w,
  match w_heap w !! array with
  | Some (JFloatArray elems) => Returned (elems, w)
  | _ => Aborted (BadReference array)
  end.

Definition GetArrayLength (array : jref) : jni Z := λ w,
  match w_heap w !! array with
  | Some (JFloatArray elems) => Returned (Z.of_nat (length elems), w)
  | Some (JByteArray elems) => Returned (Z.of_nat (length elems), w)
  | _ => Aborted (BadReference array)
  end.

(** Mode 0 and [JNI_COMMIT] copy the native buffer back into the array,
    [JNI_ABORT] frees the buffer and leaves the array alone. *)
Definition ReleaseFloatArrayElements (array : jref) (elems : list jfloat) (mode : Z)
  : jni unit := λ w,
  let w := add_event (ReleaseFloatArray array mode) w in
  if mode =? JNI_ABORT then Returned (tt, w)
  else Returned (tt, set_heap (<[array := JFloatArray elems]> (w_heap w)) w).

(** [memcpy(output, src, n)]: the bytes that land in [output[0..n)]. *)
Definition memcpy (src : list byte) (n : Z) : list byte := take (Z.to_nat n) src.

(* ================================================================== *)
(** ** jni.c: the streaming adapter *)
(* ================================================================== *)

(** [struct input_stream_context].  The [env] member is the monad. *)
Record input_stream_context := {
  offset : Z;
  thiz : jref;
  input_stream : jref;
  mid_available : option jmethodID;
  mid_read : option jmethodID;
}.

Definition set_offset (o : Z) (ctx : input_stream_context) : input_stream_context :=
  {| offset := o; thiz := thiz ctx; input_stream := input_stream ctx;
     mid_available := mid_available ctx; mid_read := mid_read ctx |}.

(** The clamp of [inputStreamRead].  [read_size] is a [size_t] and
    [avail_size] a [jint]: the comparison is made in [size_t], the cast
    truncates to 32 bits. *)
Definition size_to_copy (abi : ABI) (read_size avail_size : Z) : Z :=
  if read_size <? to_size_t abi avail_size then to_jint read_size else avail_size.

(** [size_t inputStreamRead(void * ctx, void * output, size_t read_size)]:
    gives the bytes stored in [output], the value returned and the
    context. *)
Definition inputStreamRead (abi : ABI) (ctx : input_stream_context) (read_size : Z)
  : jni (list byte * Z * input_stream_context) :=
  avail_size ← CallIntMethod (input_stream ctx) (mid_available ctx) [];
  let size_to_copy := size_to_copy abi read_size avail_size in
  byte_array ← NewByteArray size_to_copy;
  n_read ← CallIntMethod (input_stream ctx) (mid_read ctx)
             [VRef byte_array; VInt 0; VInt size_to_copy];
  (if negb (to_size_t abi size_to_copy =? read_size) || negb (size_to_copy =? n_read)
   then LOGI "Insufficient Read: Req=%zu, ToCopy=%d, Available=%d"
             [ArgInt read_size; ArgInt size_to_copy; ArgInt n_read]
   else mret tt);;
  byte_array_elements ← GetByteArrayElements byte_array;
  let output := memcpy byte_array_elements (to_size_t abi size_to_copy) in
  ReleaseByteArrayElements byte_array byte_array_elements JNI_ABORT;;
  DeleteLocalRef byte_array;;
  mret (output, to_size_t abi size_to_copy,
        set_offset (to_size_t abi (offset ctx + to_size_t abi size_to_copy)) ctx).

(** [bool inputStreamEof(void * ctx)] *)
Definition inputStreamEof (ctx : input_stream_context)
  : jni (bool * input_stream_context) :=
  result ← CallIntMethod (input_stream ctx) (mid_available ctx) [];
  mret (result <=? 0, ctx).

(** [void inputStreamClose(void * ctx)]: the body is empty. *)
Definition inputStreamClose (ctx : input_stream_context) : jni input_stream_context :=
  mret ctx.

(* ================================================================== *)
(** ** whisper.h: the calls *)
(* ================================================================== *)

(** [struct whisper_model_loader]: the callbacks take the loader's
    [context] and give it back as they left it. *)
Record whisper_model_loader (C : Type) := {
  context : C;
  read : C → Z → jni (list byte * Z * C);
  eof : C → jni (bool * C);
  close : C → jni C;
}.
Arguments context {C}.
Arguments read {C}.
Arguments eof {C}.
Arguments close {C}.

(** The library's run over the loader's callbacks.  What the library hands
    over is taken at its C type: [read] is asked for a [size_t] number of
    bytes, the context returned is a pointer, a result code is an [int]. *)
Fixpoint run_loader {C : Type} (abi : ABI) (loader : whisper_model_loader C)
    (p : loader_prog native) (c : C) : jni (Z * C) :=
  match p with
  | Finish context n' => put_native n';; mret (to_pointer abi context, c)
  | CallRead read_size k =>
      '(output, count, c') ← read loader c (to_size_t abi read_size);
      run_loader abi loader (k output count) c'
  | CallEof k =>
      '(at_end, c') ← eof loader c;
      run_loader abi loader (k at_end) c'
  | CallClose k =>
      c' ← close loader c;
      run_loader abi loader k c'
  end.

Definition whisper_init_with_params {C : Type} (abi : ABI)
    (loader : whisper_model_loader C) (cparams : whisper_context_params)
  : jni (Z * C) :=
  emit WhisperInitWithParams;;
  n ← get_native;
  run_loader abi loader (lib_init_with_params cparams n) (context loader).

Definition whisper_init_from_file_with_params (abi : ABI) (path : string)
    (cparams : whisper_context_params) : jni Z :=
  emit (WhisperInitFromFile path);;
  n ← get_native;
  let '(context, n') := lib_init_from_file_with_params path cparams n in
  put_native n';; mret (to_pointer abi context).

Definition whisper_free (context : Z) : jni unit :=
  n ← get_native; put_native (lib_free context n).

Definition whisper_reset_timings (context : Z) : jni unit :=
  emit (WhisperResetTimings context);;
  n ← get_native; put_native (lib_reset_timings context n).

Definition whisper_full (context : Z) (params : whisper_full_params params_rest)
    (samples : list jfloat) (n_samples : Z) : jni Z :=
  emit (WhisperFull context params samples n_samples);;
  n ← get_native;
  let '(result, n') := lib_full context params samples n_samples n in
  put_native n';; mret (to_jint result).

Definition whisper_get_timings (context : Z) : jni whisper_timings :=
  n ← get_native; mret (lib_get_timings context n).

Definition whisper_full_n_segments (context : Z) : jni Z :=
  n ← get_native; mret (to_jint (lib_full_n_segments context n)).

Definition whisper_full_get_segment_text (context i : Z) : jni (option string) :=
  n ← get_native; mret (lib_full_get_segment_text context i n).

(* ================================================================== *)
(** ** android/asset_manager.h *)
(* ================================================================== *)

(** An open asset: its bytes and the read position. *)
Record AAsset := { asset_data : list byte; asset_pos : nat }.

(** NULL ([None]) when there is no asset of that path. *)
Definition AAssetManager_open (path : string) : jni (option AAsset) := λ w,
  Returned (match w_assets w !! path with
            | Some data => Some {| asset_data := data; asset_pos := 0 |}
            | None => None
            end,
            add_event (AssetOpen path) w).

Definition AAsset_getRemainingLength64 (a : AAsset) : Z :=
  Z.of_nat (length (asset_data a) - asset_pos a).

(** A read that succeeds.  The NDK's function may also fail and answer a
    negative [int]; see [asset_read_via] for what [asset_read] makes of
    that. *)
Definition AAsset_read (a : AAsset) (count : Z) : list byte * Z * AAsset :=
  let n := Nat.min (Z.to_nat count) (length (asset_data a) - asset_pos a) in
  (take n (drop (asset_pos a) (asset_data a)), to_jint (Z.of_nat n),
   {| asset_data := asset_data a; asset_pos := asset_pos a + n |}).

Definition AAsset_close (a : AAsset) : jni unit := emit AssetClose.

(* ================================================================== *)
(** ** jni.c: the loaders and the initialisation entry points *)
(* ================================================================== *)

(** The [loader] of [initContextFromInputStream]: [loader.context] points to
    [inp_ctx], which the callbacks update in place. *)
Definition stream_loader (abi : ABI) (inp_ctx : input_stream_context)
  : whisper_model_loader input_stream_context :=
  {| context := inp_ctx; read := inputStreamRead abi;
     eof := inputStreamEof; close := inputStreamClose |}.

(** [Java_..._initContextFromInputStream(env, thiz, input_stream)] *)
Definition initContextFromInputStream (abi : ABI) (thiz input_stream : jref)
  : jni Z :=
  cls ← GetObjectClass input_stream;
  let inp_ctx :=
    {| offset := 0; thiz := thiz; input_stream := input_stream;
       mid_available := GetMethodID cls "available" "()I";
       mid_read := GetMethodID cls "read" "([BII)I" |} in
  let loader := stream_loader abi inp_ctx in
  '(_, inp_ctx) ← eof loader (context loader);
  let loader := stream_loader abi inp_ctx in
  let cparams := lib_context_default_params in
  '(context, _) ← whisper_init_with_params abi loader cparams;
  mret (to_jlong context).

Definition asset_read (abi : ABI) (ctx : AAsset) (read_size : Z)
  : jni (list byte * Z * AAsset) :=
  let '(output, n, ctx') := AAsset_read ctx read_size in
  mret (output, to_size_t abi n, ctx').

Definition asset_is_eof (ctx : AAsset) : jni (bool * AAsset) :=
  mret (AAsset_getRemainingLength64 ctx <=? 0, ctx).

Definition asset_close (ctx : AAsset) : jni AAsset :=
  AAsset_close ctx;; mret ctx.

(** The [loader] of [whisper_init_from_asset]. *)
Definition asset_loader (abi : ABI) (asset : AAsset) : whisper_model_loader AAsset :=
  {| context := asset; read := asset_read abi;
     eof := asset_is_eof; close := asset_close |}.

(** [whisper_init_from_asset(env, assetManager, asset_path)]; the asset
    manager is [w_assets]. *)
Definition whisper_init_from_asset (abi : ABI) (asset_path : string) : jni Z :=
  LOGI ("Loading model from asset '%s'" +:+ line_feed) [ArgStr asset_path];;
  asset ← AAssetManager_open asset_path;
  match asset with
  | None =>
      LOGW ("Failed to open '%s'" +:+ line_feed) [ArgStr asset_path];;
      mret NULL
  | Some asset =>
      let loader := asset_loader abi asset in
      '(context, _) ← whisper_init_with_params abi loader lib_context_default_params;
      mret context
  end.

(** [Java_..._initContextFromAsset(env, thiz, assetManager, asset_path_str)] *)
Definition initContextFromAsset (abi : ABI) (asset_path_str : string) : jni Z :=
  asset_path_chars ← GetStringUTFChars asset_path_str;
  context ← whisper_init_from_asset abi asset_path_chars;
  ReleaseStringUTFChars asset_path_str asset_path_chars;;
  mret (to_jlong context).

(** [Java_..._initContext(env, thiz, model_path_str)] *)
Definition initContext (abi : ABI) (model_path_str : string) : jni Z :=
  model_path_chars ← GetStringUTFChars model_path_str;
  context ← whisper_init_from_file_with_params abi model_path_chars
              lib_context_default_params;
  ReleaseStringUTFChars model_path_str model_path_chars;;
  mret (to_jlong context).

(** [Java_..._freeContext(env, thiz, context_ptr)] *)
Definition freeContext (abi : ABI) (context_ptr : Z) : jni unit :=
  let context := to_pointer abi context_ptr in
  whisper_free context.

(* ================================================================== *)
(** ** jni.c: fullTranscribe *)
(* ================================================================== *)

(** The [params] of [fullTranscribe] after its assignments (lines 175 to
    216): the library's greedy defaults with every member below
    overwritten. *)
Definition fullTranscribe_params (num_threads : Z) : whisper_full_params params_rest :=
  let params := lib_full_default_params WHISPER_SAMPLING_GREEDY in
  {| strategy := strategy params;
     print_realtime := false;
     print_progress := false;
     print_timestamps := false;
     print_special := false;
     translate := false;
     language := "en";
     n_threads := num_threads;
     offset_ms := 0;
     duration_ms := 0;
     no_context := true;
     no_timestamps := false;
     single_segment := false;
     token_timestamps := false;
     max_len := 0;
     max_tokens := 0;
     split_on_word := true;
     audio_ctx := 0;
     n_max_text_ctx := 0;
     debug_mode := false;
     tdrz_enable := false;
     detect_language := false;
     temperature := f32_0_0;
     temperature_inc := f32_0_0;
     entropy_thold := f32_2_4;
     logprob_thold := f32_m1_0;
     no_speech_thold := f32_0_6;
     suppress_blank := true;
     suppress_nst := false;
     greedy_best_of := 1;
     other_params := other_params params |}.

(** [params] with another thread count. *)
Definition set_n_threads {R} (n : Z) (params : whisper_full_params R)
  : whisper_full_params R :=
  {| strategy := strategy params;
     print_realtime := print_realtime params;
     print_progress := print_progress params;
     print_timestamps := print_timestamps params;
     print_special := print_special params;
     translate := translate params;
     language := language params;
     n_threads := n;
     offset_ms := offset_ms params;
     duration_ms := duration_ms params;
     no_context := no_context params;
     no_timestamps := no_timestamps params;
     single_segment := single_segment params;
     token_timestamps := token_timestamps params;
     max_len := max_len params;
     max_tokens := max_tokens params;
     split_on_word := split_on_word params;
     audio_ctx := audio_ctx params;
     n_max_text_ctx := n_max_text_ctx params;
     debug_mode := debug_mode params;
     tdrz_enable := tdrz_enable params;
     detect_language := detect_language params;
     temperature := temperature params;
     temperature_inc := temperature_inc params;
     entropy_thold := entropy_thold params;
     logprob_thold := logprob_thold params;
     no_speech_thold := no_speech_thold params;
     suppress_blank := suppress_blank params;
     suppress_nst := suppress_nst params;
     greedy_best_of := greedy_best_of params;
     other_params := other_params params |}.

(** The loop [for (int i = 0; i < n_segments; i++)] with [count] rounds
    left: a segment text that is not NULL is appended to [full_text]. *)
Fixpoint concat_segments (context : Z) (count : nat) (i : Z) (full_text : string)
  : jni string :=
  match count with
  | O => mret full_text
  | S count' =>
      segment_text ← whisper_full_get_segment_text context i;
      let full_text :=
        match segment_text with
        | Some segment_text => full_text +:+ segment_text
        | None => full_text
        end in
      concat_segments context count' (i + 1) full_text
  end.

Definition log_timings (timings : whisper_timings) : jni unit :=
  LOGI "========================================" [];;
  LOGI "⏱️ WHISPER.CPP DETAILED TIMINGS:" [];;
  LOGI "========================================" [];;
  LOGI "  Sample time:  %8.2f ms (token sampling)" [ArgDouble (FVal (sample_ms timings))];;
  LOGI "  Encode time:  %8.2f ms (encoder forward pass)" [ArgDouble (FVal (encode_ms timings))];;
  LOGI "  Decode time:  %8.2f ms (decoder forward pass)" [ArgDouble (FVal (decode_ms timings))];;
  LOGI "  Batch time:   %8.2f ms (batch decoding)" [ArgDouble (FVal (batchd_ms timings))];;
  LOGI "  Prompt time:  %8.2f ms (prompt processing)" [ArgDouble (FVal (prompt_ms timings))];;
  LOGI "========================================" [];;
  LOGI "  TOTAL:        %8.2f ms"
       [ArgDouble (FAdd (FAdd (FAdd (FAdd (FVal (sample_ms timings)) (FVal (encode_ms timings)))
                                    (FVal (decode_ms timings)))
                              (FVal (batchd_ms timings)))
                        (FVal (prompt_ms timings)))];;
  LOGI "========================================" [].

(** [Java_..._fullTranscribe(env, thiz, context_ptr, num_threads, audio_data)] *)
Definition fullTranscribe (abi : ABI) (context_ptr num_threads : Z) (audio_data : jref)
  : jni jstring :=
  let context := to_pointer abi context_ptr in
  audio_data_arr ← GetFloatArrayElements audio_data;
  audio_data_length ← GetArrayLength audio_data;
  let params := fullTranscribe_params num_threads in
  whisper_reset_timings context;;
  LOGI "About to run whisper_full with %d samples, %d threads"
       [ArgInt audio_data_length; ArgInt num_threads];;
  LOGI "Whisper params: realtime=%d, timestamps=%d, context=%d"
       [ArgInt (Z.b2z (print_realtime params)); ArgInt (Z.b2z (print_timestamps params));
        ArgInt (Z.b2z (no_context params))];;
  result ← whisper_full context params audio_data_arr audio_data_length;
  LOGI "whisper_full returned: %d" [ArgInt result];;
  if negb (result =? 0) then
    LOGI "Failed to run the model, error code: %d" [ArgInt result];;
    ReleaseFloatArrayElements audio_data audio_data_arr JNI_ABORT;;
    NewStringUTF ""
  else
    LOGI "Model ran successfully, printing timings..." [];;
    timings ← whisper_get_timings context;
    log_timings timings;;
    LOGI "Timings printed, transcription complete" [];;
    n_segments ← whisper_full_n_segments context;
    let full_text := "" in
    full_text ← concat_segments context (Z.to_nat n_segments) 0 full_text;
    result_string ← NewStringUTF full_text;
    ReleaseFloatArrayElements audio_data audio_data_arr JNI_ABORT;;
    mret result_string.

(* ================================================================== *)
(** ** Vocabulary of the statements *)
(* ================================================================== *)

(** [w'] continues [w]: its trace is that of [w] followed by events that all
    satisfy [P]. *)
Definition continues (P : event → Prop) (w w' : world) : Prop :=
  ∃ evs, w_trace w' = w_trace w ++ evs ∧ Forall P evs.

(** A computation all of whose returns continue the trace with [P]. *)
Definition emits {A} (P : event → Prop) (m : jni A) : Prop :=
  ∀ w a w', m w = Returned (a, w') → continues P w w'.

Definition is_log (e : event) : Prop := ∃ prio fmt args, e = Log prio fmt args.

(** The calls of [whisper_full] in a trace, with what they were given. *)
Definition whisper_full_calls (tr : list event)
  : list (Z * whisper_full_params params_rest * list jfloat * Z) :=
  omap (λ e, match e with
             | WhisperFull context params samples n_samples =>
                 Some (context, params, samples, n_samples)
             | _ => None
             end) tr.

(** The float arrays released in a trace, with the release mode. *)
Definition float_array_releases (tr : list event) : list (jref * Z) :=
  omap (λ e, match e with
             | ReleaseFloatArray array mode => Some (array, mode)
             | _ => None
             end) tr.

(** The transcription as the specification words it: the texts of the
    segments 0 to [whisper_full_n_segments(context) - 1], in this order,
    joined into one string.  A segment without text adds nothing. *)
Definition concatenated_segment_texts (context : Z) (n : native) : string :=
  String.concat ""
    ((λ i, default "" (lib_full_get_segment_text context i n)) <$>
       seqZ 0 (to_jint (lib_full_n_segments context n))).

(** No call of [close] on a managed stream. *)
Definition not_stream_close (e : event) : Prop :=
  ∀ obj args, e ≠ StreamCall obj MID_close args.

(** What a handle has to do with the context it stands for: it is the
    address converted to [jlong], converting it back gives the address, and
    it is zero exactly for the null pointer. *)
Definition handle_of (abi : ABI) (handle context : Z) : Prop :=
  handle = to_jlong context ∧
  to_pointer abi handle = context ∧
  (handle = 0 ↔ context = NULL).

End Model.

Arguments context {W IS C}.
Arguments read {W IS C}.
Arguments eof {W IS C}.
Arguments close {W IS C}.

(* ================================================================== *)
(** ** jni.c: [asset_read] over any [AAsset_read] *)
(* ================================================================== *)

Section Boundary.
Context {W : WhisperLib} {IS : InputStream}.

(** [asset_read] with the NDK's [AAsset_read] as a parameter: what the
    function makes of whatever [int] comes back, the negative one of a
    failed read included.  [asset_read] is this function at the stand-in
    [AAsset_read] above, which never fails. *)
Definition asset_read_via {A : Type} (ndk_read : A → Z → list byte * Z * A)
    (abi : ABI) (ctx : A) (read_size : Z) : jni (list byte * Z * A) :=
  let '(output, n, ctx') := ndk_read ctx read_size in
  mret (output, to_size_t abi n, ctx').

(** *** More vocabulary *)

(** The number of bytes a [read] on the managed stream was asked for. *)
Definition read_length (e : event) : Z :=
  match e with
  | StreamCall _ MID_read [_; _; VInt len] => len
  | _ => 0
  end.

(** All the bytes asked of the managed stream in a trace. *)
Definition bytes_asked (tr : list event) : Z :=
  foldr (λ e total, read_length e + total) 0 tr.

(** What the streaming adapter lets cross the boundary: [available] and
    [read] on its stream [obj], and its one log line. *)
Definition adapter_event (obj : jref) (e : event) : Prop :=
  (∃ args, e = StreamCall obj MID_available args) ∨
  (∃ args, e = StreamCall obj MID_read args) ∨
  (∃ args, e = Log ANDROID_LOG_INFO
                 "Insufficient Read: Req=%zu, ToCopy=%d, Available=%d" args).

(** A property [Inv] of the managed stream that its methods keep and under
    which [available] answers no negative [int]: the stream keeps to the
    contract of [java.io.InputStream.available]. *)
Definition available_never_negative (Inv : stream → Prop) : Prop :=
  ∀ s, Inv s →
    0 ≤ to_jint (stream_available s).1 ∧
    Inv (stream_available s).2 ∧
    ∀ b off len, Inv (stream_read s b off len).2.

(** From [(ctx, w)] the adapter's callbacks have led to [(ctx', w')]: the
    trace went on with the adapter's own events, the context still names
    the same stream and methods, its offset went up by the bytes asked of
    the stream, and no other managed object and no asset changed. *)
Definition adapter_run (abi : ABI) (ctx : input_stream_context) (w : world)
    (ctx' : input_stream_context) (w' : world) : Prop :=
  ∃ evs,
    w_trace w' = w_trace w ++ evs ∧
    Forall (adapter_event (input_stream ctx)) evs ∧
    input_stream ctx' = input_stream ctx ∧
    thiz ctx' = thiz ctx ∧
    mid_available ctx' = mid_available ctx ∧
    mid_read ctx' = mid_read ctx ∧
    to_size_t abi (offset ctx') = to_size_t abi (offset ctx + bytes_asked evs) ∧
    (∀ r, r ≠ input_stream ctx → w_heap w' !! r = w_heap w !! r) ∧
    w_assets w' = w_assets w.

End Boundary.

(* ================================================================== *)
(** ** Executable stand-ins for the other side of the boundary *)
(* ================================================================== *)

(** [java.io.ByteArrayInputStream]: the bytes and the read position. *)
Record ByteArrayInputStream := { buf : list byte; pos : nat }.

Definition ByteArrayInputStream_read (s : ByteArrayInputStream)
    (b : list byte) (off len : Z) : Z * list byte * ByteArrayInputStream :=
  let avail := (length (buf s) - pos s)%nat in
  if (avail =? 0)%nat then (-1, b, s)
  else
    let len := Z.min len (Z.of_nat avail) in
    if len <=? 0 then (0, b, s)
    else
      let n := Z.to_nat len in
      (len,
       take (Z.to_nat off) b ++ take n (drop (pos s) (buf s)) ++ drop (Z.to_nat off + n) b,
       {| buf := buf s; pos := pos s + n |}).

Definition ByteArrayStream : InputStream :=
  {| stream := ByteArrayInputStream;
     stream_available s := (Z.of_nat (length (buf s) - pos s), s);
     stream_read := ByteArrayInputStream_read;
     stream_close s := s |}.

(** A stream that answers what it is told to, whatever it is asked. *)
Record StubInputStream := {
  stub_available : Z;
  stub_read : Z;
  stub_bytes : list byte;
}.

Definition StubStream : InputStream :=
  {| stream := StubInputStream;
     stream_available s := (stub_available s, s);
     stream_read s b off len := (stub_read s, stub_bytes s, s);
     stream_close s := s |}.

(** A stand-in for the inference library.  Loading wants the four bytes
    "ggml" from the loader; a run over no samples fails with -7, any other
    run leaves three segments, the second without text. *)
Record StubNative := { stub_segments : list (option string) }.

Definition stub_defaults (s : whisper_sampling_strategy) : whisper_full_params unit :=
  {| strategy := s;
     print_realtime := false; print_progress := true;
     print_timestamps := true; print_special := false;
     translate := false; language := "en"; n_threads := 4;
     offset_ms := 0; duration_ms := 0;
     no_context := true; no_timestamps := false;
     single_segment := false; token_timestamps := false;
     max_len := 0; max_tokens := 0; split_on_word := false;
     audio_ctx := 0; n_max_text_ctx := 16384;
     debug_mode := false; tdrz_enable := false; detect_language := false;
     temperature := f32_0_0; temperature_inc := 0x3E4CCCCD;
     entropy_thold := f32_2_4; logprob_thold := f32_m1_0;
     no_speech_thold := f32_0_6;
     suppress_blank := true; suppress_nst := false;
     greedy_best_of := 5; other_params := tt |}.

Definition stub_magic : list byte := [x67; x67; x6d; x6c].
Definition stub_context : Z := 0xb4000071a2b3c4d0.

Definition stub_load (n : StubNative) : loader_prog StubNative :=
  CallEof (λ at_end,
    if at_end then Finish NULL n
    else CallRead 4 (λ output count,
      CallClose (
        if (count =? 4) && bool_decide (Byte.to_N <$> output = Byte.to_N <$> stub_magic)
        then Finish stub_context n
        else Finish NULL n))).

Definition StubWhisper : WhisperLib :=
  {| native := StubNative;
     params_rest := unit;
     whisper_context_params := unit;
     lib_context_default_params := tt;
     lib_full_default_params := stub_defaults;
     lib_init_from_file_with_params path _ n :=
       (if String.eqb path "" then NULL else stub_context, n);
     lib_init_with_params _ := stub_load;
     lib_free _ n := n;
     lib_reset_timings _ n := n;
     lib_full _ _ _ n_samples n :=
       if n_samples =? 0 then (-7, n)
       else (0, {| stub_segments := [Some " Hello"; None; Some ", world."] |});
     lib_get_timings _ _ :=
       {| sample_ms := 0; encode_ms := 0; decode_ms := 0; batchd_ms := 0; prompt_ms := 0 |};
     lib_full_n_segments _ n := Z.of_nat (length (stub_segments n));
     lib_full_get_segment_text _ i n :=
       if i <? 0 then None else mjoin (stub_segments n !! Z.to_nat i) |}.

(** A world to run the adapter in: a stream that holds a model of five
    bytes, an array of three samples, an array of none, and one packaged
    asset. *)
Definition demo_world : @world StubWhisper ByteArrayStream :=
  World (W := StubWhisper) (IS := ByteArrayStream)
    {[ 1%positive := JInputStream (IS := ByteArrayStream)
                       {| buf := stub_magic ++ [x01]; pos := 0 |};
       5%positive := JFloatArray [0x3DCCCCCD; 0xBE4CCCCD; 0x3E99999A];
       6%positive := JFloatArray [] ]}
    {[ "models/ggml-tiny.bin" := stub_magic ]}
    {| stub_segments := [] |}
    [].

(** The same world with a stream that reports -1 bytes available. *)
Definition negative_stream : StubInputStream :=
  {| stub_available := -1; stub_read := -1; stub_bytes := [] |}.

Definition negative_world : @world StubWhisper StubStream :=
  World (W := StubWhisper) (IS := StubStream)
    {[ 1%positive := JInputStream (IS := StubStream) negative_stream ]}
    ∅
    {| stub_segments := [] |}
    [].

(** An adapter context on the stream at reference 1. *)
Definition demo_context : input_stream_context :=
  {| offset := 0; thiz := 9%positive; input_stream := 1%positive;
     mid_available := Some MID_available; mid_read := Some MID_read |}.

(** The stand-in library again, except that every run succeeds and hears
    nothing: one segment without text and one with the empty text. *)
Definition SilentWhisper : WhisperLib :=
  {| native := StubNative;
     params_rest := unit;
     whisper_context_params := unit;
     lib_context_default_params := tt;
     lib_full_default_params := stub_defaults;
     lib_init_from_file_with_params := lib_init_from_file_with_params (WhisperLib := StubWhisper);
     lib_init_with_params _ := stub_load;
     lib_free _ n := n;
     lib_reset_timings _ n := n;
     lib_full _ _ _ _ _ := (0, {| stub_segments := [None; Some ""] |});
     lib_get_timings := lib_get_timings (WhisperLib := StubWhisper);
     lib_full_n_segments := lib_full_n_segments (WhisperLib := StubWhisper);
     lib_full_get_segment_text := lib_full_get_segment_text (WhisperLib := StubWhisper) |}.

Definition silent_world : @world SilentWhisper ByteArrayStream :=
  World (W := SilentWhisper) (IS := ByteArrayStream)
    {[ 5%positive := JFloatArray [0x3DCCCCCD; 0xBE4CCCCD; 0x3E99999A] ]}
    ∅
    {| stub_segments := [] |}
    [].

(* ================================================================== *)
(** * Properties *)
(* ================================================================== *)

(** ** Machine integers *)

Lemma two_p_size_bits abi :
  2 ^ size_bits abi = 4294967296 ∨ 2 ^ size_bits abi = 18446744073709551616.
Proof. destruct abi; [left | right]; reflexivity. Qed.

Lemma to_size_t_range abi z : size_t_range abi (to_size_t abi z).
Proof.
  unfold size_t_range, to_size_t, wrap_unsigned.
  apply Z.mod_pos_bound. destruct abi; reflexivity.
Qed.

Lemma to_size_t_small abi z : size_t_range abi z → to_size_t abi z = z.
Proof. intros Hz. unfold to_size_t, wrap_unsigned. by apply Z.mod_small. Qed.

Lemma to_jint_range z : jint_range (to_jint z).
Proof.
  unfold jint_range, to_jint, wrap_signed.
  change (2 ^ (32 - 1)) with 2147483648. change (2 ^ 32) with 4294967296.
  change (2 ^ 31) with 2147483648.
  pose proof (Z.mod_pos_bound z 4294967296 eq_refl).
  destruct (Z.ltb_spec (z mod 4294967296) 2147483648); lia.
Qed.

Lemma to_jint_small z : jint_range z → to_jint z = z.
Proof.
  unfold jint_range, to_jint, wrap_signed.
  change (2 ^ (32 - 1)) with 2147483648. change (2 ^ 32) with 4294967296.
  change (2 ^ 31) with 2147483648. intros Hz.
  destruct (Z.ltb_spec (z mod 4294967296) 2147483648) as [Hlt | Hge];
    Z.div_mod_to_equations; lia.
Qed.

(** A 32-bit truncation of a non-negative number never grows it. *)
Lemma to_jint_le z : 0 ≤ z → to_jint z ≤ z.
Proof.
  unfold to_jint, wrap_signed.
  change (2 ^ (32 - 1)) with 2147483648. change (2 ^ 32) with 4294967296.
  intros Hz.
  destruct (Z.ltb_spec (z mod 4294967296) 2147483648);
    Z.div_mod_to_equations; lia.
Qed.

Lemma jint_size_t_small abi z : 0 ≤ z → jint_range z → to_size_t abi z = z.
Proof.
  intros H0 [_ Hz]. apply to_size_t_small. split; [done |].
  change (2 ^ 31) with 2147483648 in Hz.
  destruct (two_p_size_bits abi) as [-> | ->]; lia.
Qed.

(** The handle is the address, read as a signed 64-bit number: converting
    it back gives the address, and it is zero for the null pointer only. *)
Lemma pointer_jlong_roundtrip abi p :
  pointer_range abi p → to_pointer abi (to_jlong p) = p.
Proof.
  unfold pointer_range, to_pointer, to_jlong, wrap_signed, wrap_unsigned.
  change (2 ^ (64 - 1)) with 9223372036854775808.
  change (2 ^ 64) with 18446744073709551616.
  intros Hp.
  destruct (two_p_size_bits abi) as [E | E]; rewrite E in *;
    destruct (Z.ltb_spec (p mod 18446744073709551616) 9223372036854775808);
    Z.div_mod_to_equations; lia.
Qed.

Lemma pointer_jlong_zero abi p :
  pointer_range abi p → (to_jlong p = 0 ↔ p = NULL).
Proof.
  unfold pointer_range, to_jlong, wrap_signed, NULL.
  change (2 ^ (64 - 1)) with 9223372036854775808.
  change (2 ^ 64) with 18446744073709551616.
  intros Hp.
  destruct (two_p_size_bits abi) as [E | E]; rewrite E in *;
    destruct (Z.ltb_spec (p mod 18446744073709551616) 9223372036854775808);
    Z.div_mod_to_equations; lia.
Qed.

Lemma to_pointer_range abi z : pointer_range abi (to_pointer abi z).
Proof. apply to_size_t_range. Qed.

Lemma NULL_pointer_range abi : pointer_range abi NULL.
Proof. by destruct abi. Qed.

(** ** The clamp of [inputStreamRead] *)

(** With a non-negative count of available bytes the clamp is the minimum. *)
Lemma size_to_copy_min abi read_size avail_size :
  size_t_range abi read_size → jint_range avail_size → 0 ≤ avail_size →
  size_to_copy abi read_size avail_size = Z.min read_size avail_size.
Proof.
  intros Hr Ha H0. unfold size_to_copy.
  rewrite (jint_size_t_small abi avail_size) by done.
  destruct (Z.ltb_spec read_size avail_size) as [Hlt | Hge].
  - rewrite to_jint_small; [lia |]. unfold jint_range in *.
    destruct Hr. lia.
  - lia.
Qed.

(** Whatever the stream says is available, a clamp that is not negative
    is at most the request. *)
Lemma size_to_copy_le abi read_size avail_size :
  size_t_range abi read_size → jint_range avail_size →
  0 ≤ size_to_copy abi read_size avail_size →
  to_size_t abi (size_to_copy abi read_size avail_size) ≤ read_size.
Proof.
  intros Hr Ha. unfold size_to_copy.
  destruct (Z.ltb_spec read_size (to_size_t abi avail_size)) as [Hlt | Hge]; intros H0.
  - rewrite jint_size_t_small; [| done | apply to_jint_range].
    apply to_jint_le. apply Hr.
  - by rewrite jint_size_t_small in * by done.
Qed.

Lemma size_to_copy_range abi read_size avail_size :
  jint_range avail_size → jint_range (size_to_copy abi read_size avail_size).
Proof.
  intros Ha. unfold size_to_copy.
  destruct (read_size <? _); [apply to_jint_range | done].
Qed.

(** The clamp is negative exactly here: the stream reports a negative count
    and either bit 31 of the request is set, or the request is at least the
    count read as a [size_t]. *)
Lemma size_to_copy_negative abi read_size avail_size :
  size_t_range abi read_size → jint_range avail_size →
  size_to_copy abi read_size avail_size < 0 →
  avail_size < 0 ∧ 2 ^ 31 ≤ read_size.
Proof.
  intros Hr Ha. unfold size_to_copy.
  destruct (Z.ltb_spec read_size (to_size_t abi avail_size)) as [Hlt | Hge]; intros Hneg.
  - assert (2 ^ 31 ≤ read_size) as Hbig.
    { destruct (Z.lt_ge_cases read_size (2 ^ 31)) as [Hsmall | ?]; [| done].
      rewrite to_jint_small in Hneg; [destruct Hr; lia |].
      unfold jint_range. destruct Hr. lia. }
    split; [| done].
    destruct (Z.lt_ge_cases avail_size 0) as [? | Hpos]; [done |].
    rewrite jint_size_t_small in Hlt by done. destruct Ha. lia.
  - split; [done |].
    unfold to_size_t, wrap_unsigned in Hge. unfold jint_range in Ha.
    change (2 ^ 31) with 2147483648 in *.
    destruct (two_p_size_bits abi) as [E | E]; rewrite E in *;
      Z.div_mod_to_equations; lia.
Qed.

Create HintDb emits.

Section Properties.
Context {W : WhisperLib} {IS : InputStream}.

(** ** Sequencing *)

Lemma bind_returned {A B} (m : jni A) (k : A → jni B) w a w1 :
  m w = Returned (a, w1) → (m ≫= k) w = k a w1.
Proof. intros H. unfold mbind, jni_bind. by rewrite H. Qed.

Lemma bind_inv {A B} (m : jni A) (k : A → jni B) w b w2 :
  (m ≫= k) w = Returned (b, w2) →
  ∃ a w1, m w = Returned (a, w1) ∧ k a w1 = Returned (b, w2).
Proof.
  unfold mbind, jni_bind. destruct (m w) as [[a w1] | why]; [eauto | done].
Qed.

(** ** Traces only grow *)

Lemma continues_refl P w : continues P w w.
Proof. exists []. by rewrite app_nil_r. Qed.

Lemma continues_trans P w1 w2 w3 :
  continues P w1 w2 → continues P w2 w3 → continues P w1 w3.
Proof.
  intros (e1 & H1 & F1) (e2 & H2 & F2). exists (e1 ++ e2).
  rewrite H2, H1, app_assoc. split; [done | by apply Forall_app].
Qed.

Lemma continues_add_event (P : event → Prop) e w :
  P e → continues P w (add_event e w).
Proof. intros He. exists [e]. split; [done | by constructor]. Qed.

Lemma continues_same_trace P w w' : w_trace w' = w_trace w → continues P w w'.
Proof. intros H. exists []. by rewrite app_nil_r. Qed.

Lemma continues_set_heap P h w w' :
  continues P w w' → continues P w (set_heap h w').
Proof. done. Qed.

Lemma emits_bind {A B} P (m : jni A) (k : A → jni B) :
  emits P m → (∀ a, emits P (k a)) → emits P (m ≫= k).
Proof.
  intros Hm Hk w b w2 (a & w1 & H1 & H2)%bind_inv.
  eapply continues_trans; [by eapply Hm | by eapply Hk].
Qed.

Lemma emits_ret {A} P (a : A) : emits P (mret a).
Proof. intros w a' w' [= <- <-]. apply continues_refl. Qed.

Lemma emits_emit (P : event → Prop) e : P e → emits P (emit e).
Proof. intros He w a w' [= <- <-]. by apply continues_add_event. Qed.

Lemma emits_LOGI (P : event → Prop) fmt args :
  P (Log ANDROID_LOG_INFO fmt args) → emits P (LOGI fmt args).
Proof. apply emits_emit. Qed.

Lemma emits_if {A} P (c : bool) (m1 m2 : jni A) :
  emits P m1 → emits P m2 → emits P (if c then m1 else m2).
Proof. by destruct c. Qed.

Lemma not_stream_close_Log prio fmt args : not_stream_close (Log prio fmt args).
Proof. by intros ??. Qed.

(** Calls on the managed stream: the adapter's only way there is
    [CallIntMethod], and what it invokes is [available] or [read]. *)
Lemma CallIntMethod_emits obj mid args :
  emits not_stream_close (CallIntMethod obj mid args).
Proof.
  intros w a w'. unfold CallIntMethod.
  destruct (w_heap w !! obj) as [[s | |] |]; try done.
  destruct mid as [[| |] |]; try done.
  - destruct args; [| done]. destruct (stream_available s) as [n s'].
    intros [= <- <-]. apply continues_set_heap, continues_add_event. by intros ??.
  - destruct args as [| [|b] [| [off|] [| [len|] [|]]]]; try done.
    destruct (w_heap w !! b) as [[| elems |] |]; try done.
    destruct (stream_read s elems off len) as [[n elems'] s'].
    intros [= <- <-]. apply continues_set_heap, continues_add_event. by intros ??.
Qed.

Lemma NewByteArray_emits P len : emits P (NewByteArray len).
Proof.
  intros w a w'. unfold NewByteArray. destruct (len <? 0); [done |].
  intros [= <- <-]. by apply continues_same_trace.
Qed.

Lemma GetByteArrayElements_emits P array : emits P (GetByteArrayElements array).
Proof.
  intros w a w'. unfold GetByteArrayElements.
  destruct (w_heap w !! array) as [[| elems |] |]; try done.
  intros [= <- <-]. apply continues_refl.
Qed.

Lemma ReleaseByteArrayElements_emits P array elems mode :
  emits P (ReleaseByteArrayElements array elems mode).
Proof.
  intros w a w'. unfold ReleaseByteArrayElements.
  destruct (mode =? JNI_ABORT); intros [= <- <-]; by apply continues_same_trace.
Qed.

Lemma DeleteLocalRef_emits P r : emits P (DeleteLocalRef r).
Proof. intros w a w' [= <- <-]. by apply continues_same_trace. Qed.

#[local] Hint Resolve emits_ret emits_LOGI emits_if not_stream_close_Log
  CallIntMethod_emits NewByteArray_emits GetByteArrayElements_emits
  ReleaseByteArrayElements_emits DeleteLocalRef_emits : emits.

(** Down a sequence of calls, one bind after the other. *)
Ltac emits_steps :=
  repeat (apply emits_bind; [| intros ?]); eauto with emits.

Lemma inputStreamRead_emits abi ctx read_size :
  emits not_stream_close (inputStreamRead abi ctx read_size).
Proof. unfold inputStreamRead. emits_steps. Qed.

Lemma inputStreamEof_emits ctx : emits not_stream_close (inputStreamEof ctx).
Proof. unfold inputStreamEof. emits_steps. Qed.

Lemma run_stream_loader_emits abi ctx0 p ctx :
  emits not_stream_close (run_loader abi (stream_loader abi ctx0) p ctx).
Proof.
  revert ctx. induction p as [context n' | read_size k IH | k IH | k IH];
    intros ctx; simpl.
  - apply emits_bind; [| intros _; apply emits_ret].
    intros w a w' [= <- <-]. by apply continues_same_trace.
  - apply emits_bind; [apply inputStreamRead_emits |].
    intros [[output count] c']. apply IH.
  - apply emits_bind; [apply inputStreamEof_emits |].
    intros [at_end c']. apply IH.
  - apply emits_bind; [apply emits_ret |]. intros c'. apply IH.
Qed.

(** ** The streaming adapter *)

Lemma CallIntMethod_available obj s a s' w :
  w_heap w !! obj = Some (JInputStream s) →
  stream_available s = (a, s') →
  CallIntMethod obj (Some MID_available) [] w =
    Returned (to_jint a,
              set_heap (<[obj := JInputStream s']> (w_heap w))
                (add_event (StreamCall obj MID_available []) w)).
Proof. intros Hobj Ha. unfold CallIntMethod. by rewrite Hobj, Ha. Qed.

(** C6. [inputStreamEof] answers true if and only if the count of available
    bytes that the managed stream reports is zero or less. *)
Theorem inputStreamEof_iff_available_le_0 ctx w s a s' :
  w_heap w !! input_stream ctx = Some (JInputStream s) →
  mid_available ctx = Some MID_available →
  stream_available s = (a, s') →
  jint_range a →
  ∃ result w',
    inputStreamEof ctx w = Returned (result, ctx, w') ∧
    (result = true ↔ a ≤ 0).
Proof.
  intros Hobj Hmid Ha Hrange. unfold inputStreamEof. rewrite Hmid.
  rewrite (bind_returned _ _ _ _ _ (CallIntMethod_available _ _ _ _ _ Hobj Ha)).
  eexists _, _. split; [reflexivity |].
  rewrite to_jint_small by done. apply Z.leb_le.
Qed.

(** C10. [inputStreamClose] does nothing: the context it is given (with its
    offset), the heap with the managed stream, and the trace of calls are
    what they were.  Nor does anything else the library makes the stream
    loader do call [close] on the managed stream. *)
Theorem inputStreamClose_is_noop :
  (∀ ctx w, inputStreamClose ctx w = Returned (ctx, w)) ∧
  (∀ abi ctx0 p ctx w r w',
     run_loader abi (stream_loader abi ctx0) p ctx w = Returned (r, w') →
     continues not_stream_close w w').
Proof.
  split; [done |].
  intros abi ctx0 p ctx w r w' Hrun. by eapply run_stream_loader_emits.
Qed.

(** One run of [inputStreamRead], step by step.  The stream says [a] bytes
    are available; [n] is the clamp.  When [n] is not negative the adapter
    allocates [n] zero bytes, lets the stream's [read] fill them, copies all
    [n] of them to [output] and returns [n]; the temporary array is gone
    from the heap afterwards. *)
Lemma inputStreamRead_run abi ctx w s a s1 read_size :
  w_heap w !! input_stream ctx = Some (JInputStream s) →
  mid_available ctx = Some MID_available →
  mid_read ctx = Some MID_read →
  stream_available s = (a, s1) →
  let n := size_to_copy abi read_size (to_jint a) in
  0 ≤ n →
  let b := fresh (dom (<[input_stream ctx := JInputStream s1]> (w_heap w))) in
  ∀ n_read elems s2,
  stream_read s1 (replicate (Z.to_nat n) x00) 0 n = (n_read, elems, s2) →
  inputStreamRead abi ctx read_size w =
    Returned
      (resize (Z.to_nat n) x00 elems, to_size_t abi n,
       set_offset (to_size_t abi (offset ctx + to_size_t abi n)) ctx,
       {| w_heap := <[input_stream ctx := JInputStream s2]> (w_heap w);
          w_assets := w_assets w;
          w_native := w_native w;
          w_trace :=
            w_trace w ++
            [StreamCall (input_stream ctx) MID_available [];
             StreamCall (input_stream ctx) MID_read [VRef b; VInt 0; VInt n]] ++
            (if negb (to_size_t abi n =? read_size) || negb (n =? to_jint n_read)
             then [Log ANDROID_LOG_INFO
                     "Insufficient Read: Req=%zu, ToCopy=%d, Available=%d"
                     [ArgInt read_size; ArgInt n; ArgInt (to_jint n_read)]]
             else []) |}).
Proof.
  intros Hobj Hmid1 Hmid2 Ha n Hn b n_read elems s2 Hread.
  unfold inputStreamRead. rewrite Hmid1, Hmid2.
  rewrite (bind_returned _ _ _ _ _ (CallIntMethod_available _ _ _ _ _ Hobj Ha)).
  fold n.
  assert (b ∉ dom (<[input_stream ctx := JInputStream s1]> (w_heap w))) as Hfresh
    by apply is_fresh.
  assert (b ≠ input_stream ctx) as Hne.
  { intros ->. apply Hfresh. rewrite dom_insert. set_solver. }
  assert (w_heap w !! b = None) as Hnone.
  { apply not_elem_of_dom. intros Hin. apply Hfresh. rewrite dom_insert. set_solver. }
  unfold mbind, jni_bind, NewByteArray. cbn [w_heap set_heap add_event].
  destruct (Z.ltb_spec n 0) as [? | _]; [lia |].
  fold b.
  unfold CallIntMethod. cbn [w_heap set_heap add_event w_trace w_assets w_native].
  rewrite lookup_insert_ne by done. rewrite lookup_insert_eq.
  rewrite lookup_insert_eq.
  rewrite Hread.
  assert (to_size_t abi n = n) as Hnn.
  { apply jint_size_t_small; [done |]. apply size_to_copy_range, to_jint_range. }
  assert (∀ X Y : jobject,
            delete b (<[b:=X]> (<[input_stream ctx:=JInputStream s2]>
              (<[b:=Y]> (<[input_stream ctx:=JInputStream s1]> (w_heap w))))) =
            <[input_stream ctx:=JInputStream s2]> (w_heap w)) as Hheap.
  { intros X Y. rewrite delete_insert_eq, delete_insert_ne by done.
    rewrite delete_insert_eq, delete_insert_ne by done.
    rewrite insert_insert_eq. by rewrite delete_id. }
  assert (memcpy (resize (length (replicate (Z.to_nat n) x00)) x00 elems) (to_size_t abi n)
          = resize (Z.to_nat n) x00 elems) as Hcpy.
  { unfold memcpy. rewrite Hnn, length_replicate. apply take_ge. by rewrite length_resize. }
  destruct (negb (to_size_t abi n =? read_size) || negb (n =? to_jint n_read));
    unfold LOGI, emit, mret, jni_ret, GetByteArrayElements, ReleaseByteArrayElements,
      DeleteLocalRef;
    cbn [w_heap set_heap add_event w_trace w_assets w_native];
    rewrite lookup_insert_eq; change (JNI_ABORT =? JNI_ABORT) with true; cbv iota;
    cbn [w_heap set_heap add_event w_trace w_assets w_native];
    rewrite Hheap, Hcpy;
    do 2 f_equal; unfold set_heap, add_event;
    cbn [w_heap w_trace w_assets w_native]; f_equal;
    by rewrite <- ?app_assoc, ?app_nil_r.
Qed.

(** With a negative clamp the array cannot be made and the call does not
    return. *)
Lemma inputStreamRead_aborts abi ctx w s a s1 read_size :
  w_heap w !! input_stream ctx = Some (JInputStream s) →
  mid_available ctx = Some MID_available →
  stream_available s = (a, s1) →
  size_to_copy abi read_size (to_jint a) < 0 →
  inputStreamRead abi ctx read_size w =
    Aborted (NegativeArraySize (size_to_copy abi read_size (to_jint a))).
Proof.
  intros Hobj Hmid Ha Hneg. unfold inputStreamRead. rewrite Hmid.
  rewrite (bind_returned _ _ _ _ _ (CallIntMethod_available _ _ _ _ _ Hobj Ha)).
  unfold mbind, jni_bind, NewByteArray.
  destruct (Z.ltb_spec (size_to_copy abi read_size (to_jint a)) 0); [done | lia].
Qed.

Lemma CallIntMethod_range obj mid args w a w' :
  CallIntMethod obj mid args w = Returned (a, w') → jint_range a.
Proof.
  unfold CallIntMethod.
  destruct (w_heap w !! obj) as [[s | |] |]; try done.
  destruct mid as [[| |] |]; try done.
  - destruct args; [| done]. destruct (stream_available s) as [n s'].
    intros [= <- _]. apply to_jint_range.
  - destruct args as [| [|b] [| [off|] [| [len|] [|]]]]; try done.
    destruct (w_heap w !! b) as [[| elems |] |]; try done.
    destruct (stream_read s elems off len) as [[n elems'] s'].
    intros [= <- _]. apply to_jint_range.
Qed.

Lemma NewByteArray_returned len w r w' :
  NewByteArray len w = Returned (r, w') → 0 ≤ len.
Proof.
  unfold NewByteArray. destruct (Z.ltb_spec len 0); [done | lia].
Qed.

(** The value [inputStreamRead] returns is its clamp, which was not
    negative. *)
Lemma inputStreamRead_returned abi ctx read_size w output count ctx' w' :
  inputStreamRead abi ctx read_size w = Returned (output, count, ctx', w') →
  ∃ avail_size,
    jint_range avail_size ∧
    0 ≤ size_to_copy abi read_size avail_size ∧
    count = to_size_t abi (size_to_copy abi read_size avail_size).
Proof.
  unfold inputStreamRead. intros H.
  apply bind_inv in H as (avail_size & w1 & Havail & H).
  apply bind_inv in H as (byte_array & w2 & Hnew & H).
  apply bind_inv in H as (n_read & w3 & _ & H).
  apply bind_inv in H as (? & w4 & _ & H).
  apply bind_inv in H as (elems & w5 & _ & H).
  apply bind_inv in H as (? & w6 & _ & H).
  apply bind_inv in H as (? & w7 & _ & H).
  injection H as _ <- _ _.
  exists avail_size. split; [by eapply CallIntMethod_range |].
  split; [by eapply NewByteArray_returned | done].
Qed.

(** C4 (amended). When the managed stream reports a count [a] of available
    bytes that is not negative, [inputStreamRead] asked for [read_size]
    bytes copies exactly [min read_size a] bytes to the output buffer (the
    bytes the stream's [read] left in the array) and returns
    [min read_size a]; what [read] answers appears in the log line at most,
    never in the count. *)
Theorem inputStreamRead_copies_min abi ctx w s a s1 read_size :
  w_heap w !! input_stream ctx = Some (JInputStream s) →
  mid_available ctx = Some MID_available →
  mid_read ctx = Some MID_read →
  stream_available s = (a, s1) →
  jint_range a →
  0 ≤ a →
  size_t_range abi read_size →
  let n := Z.min read_size a in
  ∃ output ctx' w',
    inputStreamRead abi ctx read_size w = Returned (output, n, ctx', w') ∧
    Z.of_nat (length output) = n ∧
    offset ctx' = to_size_t abi (offset ctx + n) ∧
    ∀ n_read elems s2,
      stream_read s1 (replicate (Z.to_nat n) x00) 0 n = (n_read, elems, s2) →
      output = resize (Z.to_nat n) x00 elems ∧
      w_heap w' = <[input_stream ctx := JInputStream s2]> (w_heap w) ∧
      ∃ b,
        w_trace w' =
          w_trace w ++
          [StreamCall (input_stream ctx) MID_available [];
           StreamCall (input_stream ctx) MID_read [VRef b; VInt 0; VInt n]] ++
          (if negb (n =? read_size) || negb (n =? to_jint n_read)
           then [Log ANDROID_LOG_INFO
                   "Insufficient Read: Req=%zu, ToCopy=%d, Available=%d"
                   [ArgInt read_size; ArgInt n; ArgInt (to_jint n_read)]]
           else []).
Proof.
  intros Hobj Hmid1 Hmid2 Ha Hrange H0 Hr n.
  assert (size_to_copy abi read_size (to_jint a) = n) as Hclamp.
  { rewrite to_jint_small by done. by apply size_to_copy_min. }
  assert (0 ≤ n) as Hn by (destruct Hr; unfold n; lia).
  assert (to_size_t abi n = n) as Hnn.
  { apply jint_size_t_small; [done |]. rewrite <- Hclamp.
    apply size_to_copy_range, to_jint_range. }
  destruct (stream_read s1 (replicate (Z.to_nat n) x00) 0 n)
    as [[n_read elems] s2] eqn:Hread.
  pose proof (inputStreamRead_run abi ctx w s a s1 read_size Hobj Hmid1 Hmid2 Ha) as Hrun.
  cbv zeta in Hrun. rewrite Hclamp in Hrun.
  specialize (Hrun Hn n_read elems s2 Hread). rewrite Hnn in Hrun.
  eexists _, _, _. split; [exact Hrun |].
  split; [rewrite length_resize; lia |].
  split; [done |].
  intros ? ? ? [= <- <- <-]. split; [done |]. split; [done |]. eauto.
Qed.

(** C5. The count [inputStreamRead] returns is never more than the count it
    was asked for, whatever the managed stream reports as available,
    negative and very large counts included.  It does return whenever the
    reported count is not negative or the request is below 2^31; otherwise
    the clamp can be negative, and then no count comes back at all
    ([inputStreamRead_aborts]). *)
Theorem inputStreamRead_count_at_most_request abi ctx read_size w :
  size_t_range abi read_size →
  (∀ output count ctx' w',
     inputStreamRead abi ctx read_size w = Returned (output, count, ctx', w') →
     0 ≤ count ≤ read_size) ∧
  (∀ s a s1,
     w_heap w !! input_stream ctx = Some (JInputStream s) →
     mid_available ctx = Some MID_available →
     mid_read ctx = Some MID_read →
     stream_available s = (a, s1) →
     0 ≤ to_jint a ∨ read_size < 2 ^ 31 →
     ∃ output count ctx' w',
       inputStreamRead abi ctx read_size w = Returned (output, count, ctx', w')).
Proof.
  intros Hr. split.
  - intros output count ctx' w' (avail & Hrange & H0 & ->)%inputStreamRead_returned.
    split; [apply to_size_t_range | by apply size_to_copy_le].
  - intros s a s1 Hobj Hmid1 Hmid2 Ha Hcase.
    assert (0 ≤ size_to_copy abi read_size (to_jint a)) as H0.
    { destruct (Z.lt_ge_cases (size_to_copy abi read_size (to_jint a)) 0)
        as [Hneg | ?]; [| done].
      apply size_to_copy_negative in Hneg; [lia | done | apply to_jint_range]. }
    destruct (stream_read s1
                (replicate (Z.to_nat (size_to_copy abi read_size (to_jint a))) x00) 0
                (size_to_copy abi read_size (to_jint a)))
      as [[n_read elems] s2] eqn:Hread.
    pose proof (inputStreamRead_run abi ctx w s a s1 read_size Hobj Hmid1 Hmid2 Ha
                  H0 n_read elems s2 Hread) as Hrun.
    eauto.
Qed.

(** ** Initialisation *)

(** The library's run gives a pointer. *)
Lemma run_loader_pointer_range {C} abi (loader : whisper_model_loader C) p c w
    context c' w' :
  run_loader abi loader p c w = Returned (context, c', w') →
  pointer_range abi context.
Proof.
  revert c w. induction p as [context0 n' | read_size k IH | k IH | k IH];
    intros c w; simpl; intros H.
  - apply bind_inv in H as (? & w1 & _ & H). injection H as <- _ _.
    apply to_pointer_range.
  - apply bind_inv in H as ([[output count] c1] & w1 & _ & H). by eapply IH.
  - apply bind_inv in H as ([at_end c1] & w1 & _ & H). by eapply IH.
  - apply bind_inv in H as (c1 & w1 & _ & H). by eapply IH.
Qed.

(** Over an asset no callback can fail: the library's run always comes to
    its end. *)
Lemma run_asset_loader_returns abi asset0 p asset w :
  ∃ context asset' w',
    run_loader abi (asset_loader abi asset0) p asset w = Returned (context, asset', w').
Proof.
  revert asset w. induction p as [context0 n' | read_size k IH | k IH | k IH];
    intros asset w; simpl.
  - eexists _, _, _. reflexivity.
  - unfold asset_read.
    destruct (AAsset_read asset (to_size_t abi read_size)) as [[output n] asset1].
    destruct (IH output (to_size_t abi n) asset1 w) as (context & a' & w' & H).
    exists context, a', w'. exact H.
  - destruct (IH (AAsset_getRemainingLength64 asset <=? 0) asset w)
      as (context & a' & w' & H).
    exists context, a', w'. exact H.
  - destruct (IH asset (add_event AssetClose w)) as (context & a' & w' & H).
    exists context, a', w'. exact H.
Qed.

Lemma whisper_init_from_asset_returns abi asset_path w :
  ∃ context w',
    whisper_init_from_asset abi asset_path w = Returned (context, w') ∧
    pointer_range abi context ∧
    match w_assets w !! asset_path with
    | None => context = NULL
    | Some data =>
        ∃ w1 asset',
          whisper_init_with_params abi
            (asset_loader abi {| asset_data := data; asset_pos := 0 |})
            lib_context_default_params w1 = Returned (context, asset', w')
    end.
Proof.
  unfold whisper_init_from_asset, whisper_init_with_params, LOGI, LOGW, emit,
    AAssetManager_open, get_native, mbind, jni_bind.
  cbn [w_assets w_native add_event].
  destruct (w_assets w !! asset_path) as [data |].
  - cbn [context asset_loader].
    match goal with
    | |- context [run_loader abi ?l ?p ?c ?w0] =>
        destruct (run_asset_loader_returns abi c p c w0) as (result & a' & w' & H);
        pose proof (run_loader_pointer_range _ _ _ _ _ _ _ _ H) as Hrange
    end.
    exists result, w'. rewrite H. split; [done |]. split; [done |].
    eexists _, a'.
    unfold whisper_init_with_params, emit, get_native, mbind, jni_bind.
    cbn [w_native add_event context asset_loader]. exact H.
  - eexists _, _. split; [reflexivity |]. split; [apply NULL_pointer_range | done].
Qed.

Lemma handle_of_to_jlong abi context :
  pointer_range abi context → handle_of abi (to_jlong context) context.
Proof.
  intros Hrange. split; [done |].
  split; [by apply pointer_jlong_roundtrip | by apply (pointer_jlong_zero abi)].
Qed.

(** C7. When the asset cannot be opened, the asset-backed initialisation
    logs a warning and gives the null context, the zero handle for the
    managed caller; the inference library is not called and keeps its
    state. *)
Theorem initContextFromAsset_open_failure abi asset_path w :
  w_assets w !! asset_path = None →
  ∃ w',
    whisper_init_from_asset abi asset_path w = Returned (NULL, w') ∧
    initContextFromAsset abi asset_path w = Returned (0, w') ∧
    w_trace w' =
      w_trace w ++
      [Log ANDROID_LOG_INFO ("Loading model from asset '%s'" +:+ line_feed) [ArgStr asset_path];
       AssetOpen asset_path;
       Log ANDROID_LOG_WARN ("Failed to open '%s'" +:+ line_feed) [ArgStr asset_path]] ∧
    w_native w' = w_native w ∧
    w_heap w' = w_heap w.
Proof.
  intros Hnone.
  unfold initContextFromAsset, GetStringUTFChars, ReleaseStringUTFChars,
    whisper_init_from_asset, LOGI, LOGW, emit, AAssetManager_open,
    mbind, jni_bind, mret, jni_ret.
  cbn [w_assets add_event]. rewrite Hnone.
  eexists. split; [reflexivity |]. split; [reflexivity |].
  cbn [w_trace w_native w_heap add_event]. by rewrite <- !app_assoc.
Qed.

(** Over a stream that never reports a negative count no callback can
    fail: the clamp of every read is at least zero, so the temporary array
    gets made, and the library's run comes to its end. *)
Lemma run_stream_loader_returns abi Inv ctx0 p :
  available_never_negative Inv →
  ∀ ctx w s,
    w_heap w !! input_stream ctx = Some (JInputStream s) →
    Inv s →
    mid_available ctx = Some MID_available →
    mid_read ctx = Some MID_read →
    ∃ context ctx' w',
      run_loader abi (stream_loader abi ctx0) p ctx w = Returned (context, ctx', w').
Proof.
  intros HInv.
  induction p as [context0 n' | read_size k IH | k IH | k IH];
    intros ctx w s Hobj Hs Hmid1 Hmid2; cbn [run_loader read eof close stream_loader].
  - eexists _, _, _. reflexivity.
  - destruct (stream_available s) as [a s1] eqn:Ha.
    destruct (HInv s Hs) as (Hnn & Hs1 & _). rewrite Ha in Hnn, Hs1.
    cbn [fst snd] in Hnn, Hs1.
    set (n := size_to_copy abi (to_size_t abi read_size) (to_jint a)).
    assert (0 ≤ n) as Hn.
    { destruct (Z.lt_ge_cases n 0) as [Hneg | ?]; [| done].
      apply size_to_copy_negative in Hneg as [? _];
        [lia | apply to_size_t_range | apply to_jint_range]. }
    destruct (stream_read s1 (replicate (Z.to_nat n) x00) 0 n)
      as [[n_read elems] s2] eqn:Hread.
    destruct (HInv s1 Hs1) as (_ & _ & Hs2).
    specialize (Hs2 (replicate (Z.to_nat n) x00) 0 n). rewrite Hread in Hs2.
    cbn [snd] in Hs2.
    rewrite (bind_returned _ _ _ _ _
               (inputStreamRead_run abi ctx w s a s1 (to_size_t abi read_size)
                  Hobj Hmid1 Hmid2 Ha Hn n_read elems s2 Hread)).
    eapply (IH _ _ _ _ s2); [| exact Hs2 | exact Hmid1 | exact Hmid2].
    cbn [w_heap input_stream set_offset]. apply lookup_insert_eq.
  - unfold inputStreamEof. rewrite Hmid1.
    destruct (stream_available s) as [a s1] eqn:Ha.
    destruct (HInv s Hs) as (_ & Hs1 & _). rewrite Ha in Hs1. cbn [snd] in Hs1.
    rewrite (bind_returned _ _ _ _ _ (bind_returned _ _ _ _ _
               (CallIntMethod_available _ _ _ _ _ Hobj Ha))).
    eapply (IH _ _ _ s1); [| exact Hs1 | exact Hmid1 | exact Hmid2].
    cbn [w_heap set_heap]. apply lookup_insert_eq.
  - unfold inputStreamClose.
    rewrite (bind_returned _ _ w ctx w eq_refl).
    by eapply IH.
Qed.

(** C8. Each initialisation entry point returns, as the handle, the address
    of the context its native initialisation produced; the handle is zero
    if and only if that context is NULL.  For [initContext] the context is
    what [whisper_init_from_file_with_params] gave, for
    [initContextFromAsset] what [whisper_init_from_asset] gave: NULL when
    the asset did not open, and otherwise what [whisper_init_with_params]
    gave over the asset loader.  These two always return.  For
    [initContextFromInputStream] on a live input stream the context is what
    [whisper_init_with_params] gave over the stream loader, after one probe
    of the stream: whenever that initialisation comes back with a context,
    the entry point returns its address; the initialisation does come back,
    whatever the library asks of the loader, when the stream never reports
    a negative count of available bytes; and a handle the entry point
    returns is always the address of a context so produced.  (Over a stream
    that reports a negative count the clamp of [inputStreamRead] can be
    negative, and then the initialisation itself does not come back: there
    is no context.) *)
Theorem init_entry_points_return_context_address abi :
  (∀ model_path w,
     ∃ context w',
       whisper_init_from_file_with_params abi model_path
         lib_context_default_params w = Returned (context, w') ∧
       ∃ handle,
         initContext abi model_path w = Returned (handle, w') ∧
         handle_of abi handle context) ∧
  (∀ asset_path w,
     ∃ context w',
       whisper_init_from_asset abi asset_path w = Returned (context, w') ∧
       match w_assets w !! asset_path with
       | None => context = NULL
       | Some data =>
           ∃ w1 asset',
             whisper_init_with_params abi
               (asset_loader abi {| asset_data := data; asset_pos := 0 |})
               lib_context_default_params w1 = Returned (context, asset', w')
       end ∧
       ∃ handle,
         initContextFromAsset abi asset_path w = Returned (handle, w') ∧
         handle_of abi handle context) ∧
  (∀ thiz input_stream w s,
     w_heap w !! input_stream = Some (JInputStream s) →
     let inp_ctx :=
       {| offset := 0; thiz := thiz; input_stream := input_stream;
          mid_available := Some MID_available; mid_read := Some MID_read |} in
     ∃ at_end w1,
       inputStreamEof inp_ctx w = Returned (at_end, inp_ctx, w1) ∧
       (∀ context inp_ctx' w',
          whisper_init_with_params abi (stream_loader abi inp_ctx)
            lib_context_default_params w1 = Returned (context, inp_ctx', w') →
          ∃ handle,
            initContextFromInputStream abi thiz input_stream w =
              Returned (handle, w') ∧
            handle_of abi handle context) ∧
       (∀ Inv,
          available_never_negative Inv → Inv s →
          ∃ context inp_ctx' w',
            whisper_init_with_params abi (stream_loader abi inp_ctx)
              lib_context_default_params w1 = Returned (context, inp_ctx', w'))) ∧
  (∀ thiz input_stream w handle w',
     initContextFromInputStream abi thiz input_stream w = Returned (handle, w') →
     ∃ inp_ctx w1 context inp_ctx',
       whisper_init_with_params abi (stream_loader abi inp_ctx)
         lib_context_default_params w1 = Returned (context, inp_ctx', w') ∧
       handle_of abi handle context).
Proof.
  assert (∀ {C} (loader : whisper_model_loader C) w1 context c' w',
            whisper_init_with_params abi loader lib_context_default_params w1 =
              Returned (context, c', w') →
            pointer_range abi context) as Hpointer.
  { intros C loader w1 context c' w' Hinit.
    unfold whisper_init_with_params in Hinit.
    apply bind_inv in Hinit as (? & w3 & _ & Hinit).
    apply bind_inv in Hinit as (n & w4 & _ & Hinit).
    by eapply run_loader_pointer_range. }
  split; [| split; [| split]].
  - intros model_path w.
    unfold initContext, GetStringUTFChars, ReleaseStringUTFChars,
      whisper_init_from_file_with_params, emit, get_native, put_native,
      mbind, jni_bind, mret, jni_ret.
    cbn [w_native add_event].
    destruct (lib_init_from_file_with_params _ _ _) as [context n'].
    eexists _, _. split; [reflexivity |]. eexists. split; [reflexivity |].
    apply handle_of_to_jlong, to_pointer_range.
  - intros asset_path w.
    destruct (whisper_init_from_asset_returns abi asset_path w)
      as (context & w' & H & Hrange & Hhow).
    exists context, w'. split; [done |]. split; [done |].
    exists (to_jlong context).
    split; [| by apply handle_of_to_jlong].
    unfold initContextFromAsset, GetStringUTFChars, ReleaseStringUTFChars.
    unfold mbind at 1, jni_bind at 1, mret at 1, jni_ret at 1.
    by rewrite (bind_returned _ _ _ _ _ H).
  - intros thiz0 stream_ref w s Hobj inp_ctx.
    destruct (stream_available s) as [a s1] eqn:Ha.
    pose proof (CallIntMethod_available _ _ _ _ _ Hobj Ha) as Hcall.
    assert (inputStreamEof inp_ctx w =
              Returned (to_jint a <=? 0, inp_ctx,
                        set_heap (<[stream_ref := JInputStream s1]> (w_heap w))
                          (add_event (StreamCall stream_ref MID_available []) w)))
      as Hprobe.
    { unfold inputStreamEof. subst inp_ctx. cbn [input_stream mid_available].
      by rewrite (bind_returned _ _ _ _ _ Hcall). }
    eexists _, _. split; [exact Hprobe |]. split.
    + intros result c' w' Hinit.
      exists (to_jlong result).
      split; [| by eapply handle_of_to_jlong, Hpointer].
      unfold initContextFromInputStream.
      assert (GetObjectClass stream_ref w = Returned (Class_InputStream, w)) as Hcls.
      { unfold GetObjectClass. by rewrite Hobj. }
      rewrite (bind_returned _ _ _ _ _ Hcls).
      change (GetMethodID Class_InputStream "available" "()I") with (Some MID_available).
      change (GetMethodID Class_InputStream "read" "([BII)I") with (Some MID_read).
      fold inp_ctx. cbn [eof context stream_loader].
      rewrite (bind_returned _ _ _ _ _ Hprobe). cbv beta iota.
      by rewrite (bind_returned _ _ _ _ _ Hinit).
    + intros Inv HInv Hs.
      destruct (HInv s Hs) as (_ & Hs1 & _). rewrite Ha in Hs1. cbn [snd] in Hs1.
      unfold whisper_init_with_params, emit, get_native.
      unfold mbind at 1 2, jni_bind at 1 2.
      cbn [context stream_loader].
      match goal with
      | |- context [run_loader abi (stream_loader abi ?c0) ?p ?c ?w0] =>
          destruct (run_stream_loader_returns abi Inv c0 p HInv c w0 s1)
            as (result & c' & w' & H);
            [subst inp_ctx; cbn [w_heap set_heap add_event input_stream];
             apply lookup_insert_eq
            | exact Hs1 | reflexivity | reflexivity |]
      end.
      exists result, c', w'. exact H.
  - intros thiz0 stream_ref w handle w' H.
    unfold initContextFromInputStream in H.
    apply bind_inv in H as (cls & w0 & _ & H).
    apply bind_inv in H as ([at_end inp_ctx] & w1 & _ & H).
    apply bind_inv in H as ([result inp_ctx'] & w2 & Hinit & H).
    injection H as <- <-.
    exists inp_ctx, w1, result, inp_ctx'. split; [done |].
    by eapply handle_of_to_jlong, Hpointer.
Qed.

(** ** Transcription *)

Lemma string_app_assoc (a b c : string) : (a +:+ b) +:+ c = a +:+ (b +:+ c).
Proof.
  induction a as [| x a IH]; [done |].
  change (String x ((a +:+ b) +:+ c) = String x (a +:+ (b +:+ c))). by f_equal.
Qed.

Lemma string_app_nil_r (a : string) : a +:+ "" = a.
Proof.
  induction a as [| x a IH]; [done |].
  change (String x (a +:+ "") = String x a). by f_equal.
Qed.

Lemma string_concat_cons (x : string) (xs : list string) :
  String.concat "" (x :: xs) = x +:+ String.concat "" xs.
Proof. destruct xs; simpl; [by rewrite string_app_nil_r | done]. Qed.

Lemma seqZ_of_to_nat (m n : Z) : seqZ m (Z.of_nat (Z.to_nat n)) = seqZ m n.
Proof.
  destruct (Z.le_gt_cases n 0) as [Hle | Hgt].
  - rewrite !seqZ_nil; [done | done | lia].
  - by rewrite Z2Nat.id by lia.
Qed.

(** The loop reads the library's state and leaves the world alone; what it
    adds to [full_text] are the texts of [count] segments from [i] on. *)
Lemma concat_segments_run context count i full_text w :
  concat_segments context count i full_text w =
    Returned
      (full_text +:+
         String.concat ""
           ((λ j, default "" (lib_full_get_segment_text context j (w_native w))) <$>
              seqZ i (Z.of_nat count)),
       w).
Proof.
  revert i full_text. induction count as [| count IH]; intros i full_text.
  - simpl. by rewrite string_app_nil_r.
  - rewrite seqZ_cons by lia.
    replace (Z.pred (Z.of_nat (S count))) with (Z.of_nat count) by lia.
    rewrite fmap_cons, string_concat_cons.
    cbn [concat_segments].
    unfold whisper_full_get_segment_text, get_native, mbind, jni_bind, mret, jni_ret.
    replace (i + 1) with (Z.succ i) by lia. rewrite IH.
    destruct (lib_full_get_segment_text context i (w_native w)) as [t |]; simpl.
    + by rewrite string_app_assoc.
    + done.
Qed.

Lemma whisper_full_calls_logs (logs : list event) :
  Forall is_log logs → whisper_full_calls logs = [].
Proof.
  induction 1 as [| e logs (prio & fmt & args & ->) _ IH]; [done |].
  unfold whisper_full_calls in *. simpl. exact IH.
Qed.

Lemma float_array_releases_logs (logs : list event) :
  Forall is_log logs → float_array_releases logs = [].
Proof.
  induction 1 as [| e logs (prio & fmt & args & ->) _ IH]; [done |].
  unfold float_array_releases in *. simpl. exact IH.
Qed.

Lemma is_log_Log prio fmt args : is_log (Log prio fmt args).
Proof. by exists prio, fmt, args. Qed.

(** What one call of [fullTranscribe] on a float array does.  [result] is
    what the library's run answers, [n1] the state it leaves. *)
Lemma fullTranscribe_run abi context_ptr num_threads audio_data samples w result n1 :
  let context := to_pointer abi context_ptr in
  let params := fullTranscribe_params num_threads in
  w_heap w !! audio_data = Some (JFloatArray samples) →
  lib_full context params samples (Z.of_nat (length samples))
    (lib_reset_timings context (w_native w)) = (result, n1) →
  ∃ logs1 logs2,
    Forall is_log logs1 ∧ Forall is_log logs2 ∧
    fullTranscribe abi context_ptr num_threads audio_data w =
      Returned
        (Some (if negb (to_jint result =? 0) then ""
               else concatenated_segment_texts context n1),
         {| w_heap := w_heap w;
            w_assets := w_assets w;
            w_native := n1;
            w_trace :=
              w_trace w ++ [WhisperResetTimings context] ++ logs1 ++
              [WhisperFull context params samples (Z.of_nat (length samples))] ++
              logs2 ++ [ReleaseFloatArray audio_data JNI_ABORT] |}).
Proof.
  intros context params Harr Hfull.
  unfold fullTranscribe. fold context. fold params.
  unfold GetFloatArrayElements, GetArrayLength, whisper_reset_timings,
    whisper_full, whisper_get_timings, whisper_full_n_segments, log_timings,
    ReleaseFloatArrayElements, NewStringUTF, LOGI, emit, get_native, put_native.
  unfold mbind, jni_bind, mret, jni_ret.
  cbn [w_heap w_native w_trace w_assets add_event set_native set_heap].
  rewrite Harr. cbv beta iota.
  cbn [w_heap w_native w_trace w_assets add_event set_native set_heap].
  rewrite ?Harr. cbv beta iota.
  cbn [w_heap w_native w_trace w_assets add_event set_native set_heap].
  rewrite Hfull. cbv beta iota.
  cbn [w_heap w_native w_trace w_assets add_event set_native set_heap].
  destruct (negb (to_jint result =? 0)).
  - change (JNI_ABORT =? JNI_ABORT) with true. cbv iota.
    cbv [add_event set_native w_heap w_native w_trace w_assets].
    rewrite <- !app_assoc. cbn [app].
    eexists [_; _], [_; _]. split; [| split]; last first.
    + cbn [app]. reflexivity.
    + repeat (apply Forall_cons_2; [apply is_log_Log |]). apply Forall_nil_2.
    + repeat (apply Forall_cons_2; [apply is_log_Log |]). apply Forall_nil_2.
  - rewrite concat_segments_run.
    change (JNI_ABORT =? JNI_ABORT) with true. cbv iota.
    cbv [add_event set_native w_heap w_native w_trace w_assets].
    rewrite seqZ_of_to_nat. change ("" +:+ ?t) with t.
    fold (concatenated_segment_texts context n1).
    rewrite <- !app_assoc. cbn [app].
    eexists [_; _], [_; _; _; _; _; _; _; _; _; _; _; _; _; _].
    split; [| split]; last first.
    + cbn [app]. reflexivity.
    + repeat (apply Forall_cons_2; [apply is_log_Log |]). apply Forall_nil_2.
    + repeat (apply Forall_cons_2; [apply is_log_Log |]). apply Forall_nil_2.
Qed.

Lemma whisper_full_calls_app (tr1 tr2 : list event) :
  whisper_full_calls (tr1 ++ tr2) = whisper_full_calls tr1 ++ whisper_full_calls tr2.
Proof. apply omap_app. Qed.

Lemma float_array_releases_app (tr1 tr2 : list event) :
  float_array_releases (tr1 ++ tr2) =
    float_array_releases tr1 ++ float_array_releases tr2.
Proof. apply omap_app. Qed.

(** C1. When the library's run answers a result that is not zero,
    [fullTranscribe] returns the empty string: a string, not the null
    reference, and the call comes back. *)
Theorem fullTranscribe_failure_returns_empty
    abi context_ptr num_threads audio_data samples w result n1 :
  w_heap w !! audio_data = Some (JFloatArray samples) →
  lib_full (to_pointer abi context_ptr) (fullTranscribe_params num_threads)
    samples (Z.of_nat (length samples))
    (lib_reset_timings (to_pointer abi context_ptr) (w_native w)) = (result, n1) →
  jint_range result →
  result ≠ 0 →
  ∃ w',
    fullTranscribe abi context_ptr num_threads audio_data w = Returned (Some "", w').
Proof.
  intros Harr Hfull Hrange Hnz.
  destruct (fullTranscribe_run abi context_ptr num_threads audio_data samples w
              result n1 Harr Hfull) as (logs1 & logs2 & _ & _ & Hrun).
  rewrite to_jint_small in Hrun by done.
  destruct (Z.eqb_spec result 0) as [? | _]; [done |].
  eexists. exact Hrun.
Qed.

(** C2. When the library's run answers 0, [fullTranscribe] returns one
    string: the texts of the segments 0 to
    [whisper_full_n_segments(context) - 1] of the run, joined in this
    order. *)
Theorem fullTranscribe_success_concatenates_segments
    abi context_ptr num_threads audio_data samples w n1 :
  w_heap w !! audio_data = Some (JFloatArray samples) →
  lib_full (to_pointer abi context_ptr) (fullTranscribe_params num_threads)
    samples (Z.of_nat (length samples))
    (lib_reset_timings (to_pointer abi context_ptr) (w_native w)) = (0, n1) →
  ∃ w',
    fullTranscribe abi context_ptr num_threads audio_data w =
      Returned (Some (concatenated_segment_texts (to_pointer abi context_ptr) n1), w') ∧
    w_native w' = n1.
Proof.
  intros Harr Hfull.
  destruct (fullTranscribe_run abi context_ptr num_threads audio_data samples w
              0 n1 Harr Hfull) as (logs1 & logs2 & _ & _ & Hrun).
  change (negb (to_jint 0 =? 0)) with false in Hrun. cbv iota in Hrun.
  eexists. split; [exact Hrun | done].
Qed.

(** C3. Whatever the audio, [fullTranscribe] calls [whisper_full] once, with
    a profile that depends on nothing but [num_threads]: greedy sampling with
    [best_of] 1, language "en", the four printing flags off, temperature and
    temperature increment 0.0; [n_threads] is [num_threads], and another
    thread count changes no other member. *)
Theorem fullTranscribe_fixed_decoding_profile
    abi context_ptr num_threads audio_data samples w :
  (∀ s, strategy (lib_full_default_params s) = s) →
  w_heap w !! audio_data = Some (JFloatArray samples) →
  ∃ r w' params,
    fullTranscribe abi context_ptr num_threads audio_data w = Returned (r, w') ∧
    whisper_full_calls (w_trace w') =
      whisper_full_calls (w_trace w) ++
      [(to_pointer abi context_ptr, params, samples, Z.of_nat (length samples))] ∧
    params = fullTranscribe_params num_threads ∧
    strategy params = WHISPER_SAMPLING_GREEDY ∧
    greedy_best_of params = 1 ∧
    language params = "en" ∧
    print_realtime params = false ∧
    print_progress params = false ∧
    print_timestamps params = false ∧
    print_special params = false ∧
    temperature params = f32_0_0 ∧
    temperature_inc params = f32_0_0 ∧
    n_threads params = num_threads ∧
    ∀ num_threads',
      fullTranscribe_params num_threads' = set_n_threads num_threads' params.
Proof.
  intros Hstrategy Harr.
  destruct (lib_full (to_pointer abi context_ptr) (fullTranscribe_params num_threads)
              samples (Z.of_nat (length samples))
              (lib_reset_timings (to_pointer abi context_ptr) (w_native w)))
    as [result n1] eqn:Hfull.
  destruct (fullTranscribe_run abi context_ptr num_threads audio_data samples w
              result n1 Harr Hfull) as (logs1 & logs2 & Hlogs1 & Hlogs2 & Hrun).
  eexists _, _, (fullTranscribe_params num_threads).
  split; [exact Hrun |]. split.
  { cbn [w_trace]. rewrite !whisper_full_calls_app.
    rewrite (whisper_full_calls_logs logs1), (whisper_full_calls_logs logs2) by done.
    done. }
  split; [done |]. split; [apply Hstrategy |].
  repeat (split; [reflexivity |]). done.
Qed.

(** C9. On the failure path as on the success path, [fullTranscribe]
    releases the caller's float array once, in mode [JNI_ABORT]: nothing is
    written back and the heap, the array with it, is as it was. *)
Theorem fullTranscribe_releases_audio_in_abort_mode
    abi context_ptr num_threads audio_data samples w result n1 :
  w_heap w !! audio_data = Some (JFloatArray samples) →
  lib_full (to_pointer abi context_ptr) (fullTranscribe_params num_threads)
    samples (Z.of_nat (length samples))
    (lib_reset_timings (to_pointer abi context_ptr) (w_native w)) = (result, n1) →
  ∃ w',
    fullTranscribe abi context_ptr num_threads audio_data w =
      Returned
        (Some (if negb (to_jint result =? 0) then ""
               else concatenated_segment_texts (to_pointer abi context_ptr) n1),
         w') ∧
    float_array_releases (w_trace w') =
      float_array_releases (w_trace w) ++ [(audio_data, JNI_ABORT)] ∧
    w_heap w' = w_heap w ∧
    w_heap w' !! audio_data = Some (JFloatArray samples).
Proof.
  intros Harr Hfull.
  destruct (fullTranscribe_run abi context_ptr num_threads audio_data samples w
              result n1 Harr Hfull) as (logs1 & logs2 & Hlogs1 & Hlogs2 & Hrun).
  eexists. split; [exact Hrun |]. split; [| done].
  cbn [w_trace]. rewrite !float_array_releases_app.
  rewrite (float_array_releases_logs logs1), (float_array_releases_logs logs2) by done.
  done.
Qed.

End Properties.

(* ================================================================== *)
(** * The statements at work *)
(* ================================================================== *)

(** A run over no samples fails in the stand-in library: the empty string
    comes back. *)
Lemma fullTranscribe_failure_returns_empty_witness :
  ∃ w',
    fullTranscribe (W := StubWhisper) (IS := ByteArrayStream) LP64
      (to_jlong stub_context) 8 6%positive demo_world = Returned (Some "", w').
Proof.
  apply (fullTranscribe_failure_returns_empty (W := StubWhisper)
           (IS := ByteArrayStream) LP64 (to_jlong stub_context) 8 6%positive
           [] demo_world (-7) {| stub_segments := [] |}).
  - reflexivity.
  - reflexivity.
  - unfold jint_range. lia.
  - lia.
Defined.

(** A run over three samples leaves " Hello", no text, ", world.". *)
Lemma fullTranscribe_success_concatenates_segments_witness :
  ∃ w',
    fullTranscribe (W := StubWhisper) (IS := ByteArrayStream) LP64
      (to_jlong stub_context) 8 5%positive demo_world =
      Returned (Some " Hello, world.", w') ∧
    w_native w' = {| stub_segments := [Some " Hello"; None; Some ", world."] |}.
Proof.
  apply (fullTranscribe_success_concatenates_segments (W := StubWhisper)
           (IS := ByteArrayStream) LP64 (to_jlong stub_context) 8 5%positive
           [0x3DCCCCCD; 0xBE4CCCCD; 0x3E99999A] demo_world
           {| stub_segments := [Some " Hello"; None; Some ", world."] |}).
  - reflexivity.
  - reflexivity.
Defined.

Lemma fullTranscribe_fixed_decoding_profile_witness :
  ∃ r w' params,
    fullTranscribe (W := StubWhisper) (IS := ByteArrayStream) LP64
      (to_jlong stub_context) 8 5%positive demo_world = Returned (r, w') ∧
    whisper_full_calls (w_trace w') =
      [(stub_context, params, [0x3DCCCCCD; 0xBE4CCCCD; 0x3E99999A], 3)] ∧
    strategy params = WHISPER_SAMPLING_GREEDY ∧
    greedy_best_of params = 1 ∧
    n_threads params = 8.
Proof.
  destruct (fullTranscribe_fixed_decoding_profile (W := StubWhisper)
              (IS := ByteArrayStream) LP64 (to_jlong stub_context) 8 5%positive
              [0x3DCCCCCD; 0xBE4CCCCD; 0x3E99999A] demo_world)
    as (r & w' & params & Hrun & Hcalls & _ & Hstrategy & Hbest & _ & _ & _ & _
        & _ & _ & _ & Hthreads & _).
  - intros s. reflexivity.
  - reflexivity.
  - exists r, w', params. repeat split; assumption.
Defined.

Lemma fullTranscribe_releases_audio_in_abort_mode_witness :
  ∃ w',
    fullTranscribe (W := StubWhisper) (IS := ByteArrayStream) LP64
      (to_jlong stub_context) 8 6%positive demo_world = Returned (Some "", w') ∧
    float_array_releases (w_trace w') = [(6%positive, JNI_ABORT)] ∧
    w_heap w' = w_heap demo_world ∧
    w_heap w' !! 6%positive = Some (JFloatArray []).
Proof.
  apply (fullTranscribe_releases_audio_in_abort_mode (W := StubWhisper)
           (IS := ByteArrayStream) LP64 (to_jlong stub_context) 8 6%positive
           [] demo_world (-7) {| stub_segments := [] |}).
  - reflexivity.
  - reflexivity.
Defined.

(** Five bytes are available and two are asked for: two are copied. *)
Lemma inputStreamRead_copies_min_witness :
  ∃ output ctx' w',
    inputStreamRead (W := StubWhisper) (IS := ByteArrayStream) LP64
      demo_context 2 demo_world = Returned (output, 2, ctx', w') ∧
    Z.of_nat (length output) = 2 ∧
    offset ctx' = 2.
Proof.
  destruct (inputStreamRead_copies_min (W := StubWhisper) (IS := ByteArrayStream)
              LP64 demo_context demo_world
              {| buf := stub_magic ++ [x01]; pos := 0 |} 5
              {| buf := stub_magic ++ [x01]; pos := 0 |} 2)
    as (output & ctx' & w' & Hrun & Hlen & Hoff & _).
  - reflexivity.
  - reflexivity.
  - reflexivity.
  - reflexivity.
  - unfold jint_range. lia.
  - lia.
  - unfold size_t_range. simpl. lia.
  - exists output, ctx', w'. split; [exact Hrun |]. split; [exact Hlen | exact Hoff].
Defined.

Lemma inputStreamRead_count_at_most_request_witness :
  ∃ output count ctx' w',
    inputStreamRead (W := StubWhisper) (IS := ByteArrayStream) LP64
      demo_context 7 demo_world = Returned (output, count, ctx', w') ∧
    0 ≤ count ≤ 7.
Proof.
  assert (size_t_range LP64 7) as Hr by (unfold size_t_range; simpl; lia).
  destruct (inputStreamRead_count_at_most_request (W := StubWhisper)
              (IS := ByteArrayStream) LP64 demo_context 7 demo_world Hr)
    as [Hle Hreturns].
  destruct (Hreturns {| buf := stub_magic ++ [x01]; pos := 0 |} 5
              {| buf := stub_magic ++ [x01]; pos := 0 |})
    as (output & count & ctx' & w' & Hrun).
  - reflexivity.
  - reflexivity.
  - reflexivity.
  - reflexivity.
  - right. lia.
  - exists output, count, ctx', w'. split; [exact Hrun |]. exact (Hle _ _ _ _ Hrun).
Defined.

Lemma inputStreamEof_iff_available_le_0_witness :
  ∃ result w',
    inputStreamEof (W := StubWhisper) (IS := ByteArrayStream)
      demo_context demo_world = Returned (result, demo_context, w') ∧
    (result = true ↔ 5 ≤ 0).
Proof.
  apply (inputStreamEof_iff_available_le_0 (W := StubWhisper)
           (IS := ByteArrayStream) demo_context demo_world
           {| buf := stub_magic ++ [x01]; pos := 0 |} 5
           {| buf := stub_magic ++ [x01]; pos := 0 |}).
  - reflexivity.
  - reflexivity.
  - reflexivity.
  - unfold jint_range. lia.
Defined.

Lemma inputStreamClose_is_noop_witness :
  inputStreamClose (W := StubWhisper) (IS := ByteArrayStream)
    demo_context demo_world = Returned (demo_context, demo_world) ∧
  ∃ r w',
    run_loader (W := StubWhisper) (IS := ByteArrayStream) LP64
      (stream_loader LP64 demo_context)
      (stub_load {| stub_segments := [] |}) demo_context demo_world =
      Returned (r, w') ∧
    continues not_stream_close demo_world w'.
Proof.
  destruct (inputStreamClose_is_noop (W := StubWhisper) (IS := ByteArrayStream))
    as [Hnoop Hrun].
  split; [apply Hnoop |].
  eexists _, _. split; [reflexivity |].
  eapply (Hrun LP64 demo_context (stub_load {| stub_segments := [] |})
            demo_context demo_world).
  reflexivity.
Defined.

(** There is no asset "models/ggml-base.bin". *)
Lemma initContextFromAsset_open_failure_witness :
  ∃ w',
    whisper_init_from_asset (W := StubWhisper) (IS := ByteArrayStream) LP64
      "models/ggml-base.bin" demo_world = Returned (NULL, w') ∧
    initContextFromAsset (W := StubWhisper) (IS := ByteArrayStream) LP64
      "models/ggml-base.bin" demo_world = Returned (0, w') ∧
    w_trace w' =
      [Log ANDROID_LOG_INFO ("Loading model from asset '%s'" +:+ line_feed)
         [ArgStr "models/ggml-base.bin"];
       AssetOpen "models/ggml-base.bin";
       Log ANDROID_LOG_WARN ("Failed to open '%s'" +:+ line_feed)
         [ArgStr "models/ggml-base.bin"]] ∧
    w_native w' = {| stub_segments := [] |} ∧
    w_heap w' = w_heap demo_world.
Proof.
  apply (initContextFromAsset_open_failure (W := StubWhisper)
           (IS := ByteArrayStream) LP64 "models/ggml-base.bin" demo_world).
  reflexivity.
Defined.

(** A [ByteArrayInputStream] over less than 2^31 bytes (a Java array has no
    more) never reports a negative count. *)
Lemma ByteArrayStream_available_never_negative :
  available_never_negative (IS := ByteArrayStream)
    (λ s, Z.of_nat (length (buf s)) < 2 ^ 31).
Proof.
  intros s Hs. change (2 ^ 31) with 2147483648 in Hs.
  split; [| split].
  - cbn [stream_available ByteArrayStream fst].
    rewrite to_jint_small; [lia |].
    unfold jint_range. change (2 ^ 31) with 2147483648. lia.
  - exact Hs.
  - intros b off len. cbn [stream_read ByteArrayStream].
    unfold ByteArrayInputStream_read.
    destruct (_ =? _)%nat; [exact Hs |].
    destruct (_ <=? _); exact Hs.
Qed.

(** The stand-in library puts its context at an address with the top bit
    set, as Android's tagged heap pointers are: the handle is negative.
    The stream of the stand-in world holds five bytes. *)
Lemma init_entry_points_return_context_address_witness :
  ∃ w',
    initContextFromInputStream (W := StubWhisper) (IS := ByteArrayStream) LP64
      9%positive 1%positive demo_world = Returned (-5476376658821528368, w') ∧
    handle_of LP64 (-5476376658821528368) stub_context.
Proof.
  destruct (init_entry_points_return_context_address (W := StubWhisper)
              (IS := ByteArrayStream) LP64) as (_ & _ & Hstream & _).
  destruct (Hstream 9%positive 1%positive demo_world
              {| buf := stub_magic ++ [x01]; pos := 0 |} eq_refl)
    as (at_end & w1 & _ & Hhandle & Hreturns).
  destruct (Hreturns (λ s, Z.of_nat (length (buf s)) < 2 ^ 31))
    as (context & inp_ctx' & w' & Hinit).
  - exact ByteArrayStream_available_never_negative.
  - simpl. lia.
  - destruct (Hhandle context inp_ctx' w' Hinit) as (handle & Hrun & Hof).
    assert (Returned (handle, w') =
            initContextFromInputStream (W := StubWhisper) (IS := ByteArrayStream)
              LP64 9%positive 1%positive demo_world) as Hsame by (symmetry; exact Hrun).
    vm_compute in Hsame. injection Hsame as -> ->.
    eexists. split; [exact Hrun |].
    assert (context = stub_context) as <-; [| exact Hof].
    destruct Hof as (_ & <- & _). reflexivity.
Defined.

(** The stream reports -1 bytes available and 4 are asked for: 4 zero bytes
    are copied and 4 is returned, which is not the minimum of 4 and -1. *)
Lemma inputStreamRead_negative_available_counterexample :
  stream_available (InputStream := StubStream) negative_stream = (-1, negative_stream) ∧
  ∃ ctx' w',
    inputStreamRead (W := StubWhisper) (IS := StubStream) LP64
      demo_context 4 negative_world = Returned ([x00; x00; x00; x00], 4, ctx', w') ∧
    4 ≠ Z.min 4 (-1).
Proof.
  split; [reflexivity |].
  eexists _, _. split; [vm_compute; reflexivity | lia].
Qed.

(** Where the clamp goes negative: the stream reports -1 and 2^31 bytes are
    asked for.  The comparison is made in [size_t], where -1 is the largest
    value, and the cast to [jint] turns 2^31 into -2^31; no array of that
    length can be made. *)
Example inputStreamRead_negative_clamp :
  size_to_copy LP64 (2 ^ 31) (-1) = - 2 ^ 31 ∧
  to_size_t LP64 (size_to_copy LP64 (2 ^ 31) (-1)) = 2 ^ 64 - 2 ^ 31 ∧
  inputStreamRead (W := StubWhisper) (IS := StubStream) LP64
    demo_context (2 ^ 31) negative_world = Aborted (NegativeArraySize (- 2 ^ 31)).
Proof. split; [reflexivity |]. split; reflexivity. Qed.

(* ================================================================== *)
(** * Further properties of the adapter *)
(* ================================================================== *)

Section StreamAdapter.
Context {W : WhisperLib} {IS : InputStream}.

(** ** One read, looked at from its result *)

Lemma CallIntMethod_no_args_inv obj mid w a w1 :
  CallIntMethod obj mid [] w = Returned (a, w1) →
  ∃ s a0 s1,
    w_heap w !! obj = Some (JInputStream s) ∧
    mid = Some MID_available ∧
    stream_available s = (a0, s1) ∧
    a = to_jint a0 ∧
    w1 = set_heap (<[obj := JInputStream s1]> (w_heap w))
           (add_event (StreamCall obj MID_available []) w).
Proof.
  unfold CallIntMethod.
  destruct (w_heap w !! obj) as [[s | |] |]; try done.
  destruct mid as [[| |] |]; try done.
  destruct (stream_available s) as [a0 s1] eqn:Ha.
  intros [= <- <-]. by exists s, a0, s1.
Qed.

Lemma CallIntMethod_three_args_inv obj mid v1 v2 v3 w a w1 :
  CallIntMethod obj mid [v1; v2; v3] w = Returned (a, w1) →
  mid = Some MID_read.
Proof.
  unfold CallIntMethod.
  destruct (w_heap w !! obj) as [[s | |] |]; try done.
  by destruct mid as [[| |] |].
Qed.

(** A read that returned went through every step of [inputStreamRead_run]. *)
Lemma inputStreamRead_inv abi ctx read_size w output count ctx' w' :
  inputStreamRead abi ctx read_size w = Returned (output, count, ctx', w') →
  ∃ s a s1 n_read elems s2,
    let n := size_to_copy abi read_size (to_jint a) in
    w_heap w !! input_stream ctx = Some (JInputStream s) ∧
    stream_available s = (a, s1) ∧
    0 ≤ n ∧ to_size_t abi n = n ∧
    stream_read s1 (replicate (Z.to_nat n) x00) 0 n = (n_read, elems, s2) ∧
    output = resize (Z.to_nat n) x00 elems ∧
    count = n ∧
    ctx' = set_offset (to_size_t abi (offset ctx + n)) ctx ∧
    w_heap w' = <[input_stream ctx := JInputStream s2]> (w_heap w) ∧
    w_assets w' = w_assets w ∧
    w_native w' = w_native w ∧
    ∃ b,
      w_trace w' =
        w_trace w ++
        [StreamCall (input_stream ctx) MID_available [];
         StreamCall (input_stream ctx) MID_read [VRef b; VInt 0; VInt n]] ++
        (if negb (n =? read_size) || negb (n =? to_jint n_read)
         then [Log ANDROID_LOG_INFO
                 "Insufficient Read: Req=%zu, ToCopy=%d, Available=%d"
                 [ArgInt read_size; ArgInt n; ArgInt (to_jint n_read)]]
         else []).
Proof.
  intros Hret. pose proof Hret as H. unfold inputStreamRead in H.
  apply bind_inv in H as (avail_size & w1 & Havail & H).
  apply bind_inv in H as (byte_array & w2 & Hnew & H).
  apply bind_inv in H as (n_read0 & w3 & Hcall & H).
  apply CallIntMethod_no_args_inv in Havail as (s & a & s1 & Hobj & Hmid1 & Ha & -> & _).
  apply CallIntMethod_three_args_inv in Hcall as Hmid2.
  apply NewByteArray_returned in Hnew as Hn.
  destruct (stream_read s1
              (replicate (Z.to_nat (size_to_copy abi read_size (to_jint a))) x00) 0
              (size_to_copy abi read_size (to_jint a)))
    as [[n_read elems] s2] eqn:Hread.
  pose proof (inputStreamRead_run abi ctx w s a s1 read_size Hobj Hmid1 Hmid2 Ha
                Hn n_read elems s2 Hread) as Hrun.
  rewrite Hrun in Hret.
  assert (to_size_t abi (size_to_copy abi read_size (to_jint a)) =
          size_to_copy abi read_size (to_jint a)) as Hnn.
  { apply jint_size_t_small; [done |]. apply size_to_copy_range, to_jint_range. }
  rewrite Hnn in Hret. injection Hret as <- <- <- <-.
  exists s, a, s1, n_read, elems, s2. cbv zeta. cbn [w_heap w_assets w_native w_trace].
  repeat (split; [done |]). eauto.
Qed.

(** X1. [inputStreamRead] keeps to its stream: a read that returns stored as
    many bytes as it reports, moved the offset on by that count, changed no
    other member of the context, left no array behind, and touched no
    managed object but the stream, no asset and nothing of the library. *)
Theorem inputStreamRead_frame abi ctx read_size w output count ctx' w' :
  inputStreamRead abi ctx read_size w = Returned (output, count, ctx', w') →
  Z.of_nat (length output) = count ∧
  ctx' = set_offset (to_size_t abi (offset ctx + count)) ctx ∧
  dom (w_heap w') = dom (w_heap w) ∧
  (∀ r, r ≠ input_stream ctx → w_heap w' !! r = w_heap w !! r) ∧
  (∃ s', w_heap w' !! input_stream ctx = Some (JInputStream s')) ∧
  w_assets w' = w_assets w ∧
  w_native w' = w_native w.
Proof.
  intros (s & a & s1 & n_read & elems & s2 & Hobj & Ha & Hn & Hnn & Hread & -> & ->
          & -> & Hheap & Hassets & Hnative & _)%inputStreamRead_inv.
  split; [rewrite length_resize; lia |]. split; [done |].
  rewrite Hheap. split.
  { rewrite dom_insert_L. apply subseteq_union_1_L, singleton_subseteq_l.
    by eapply elem_of_dom_2. }
  split; [intros r Hr; by rewrite lookup_insert_ne |].
  split; [exists s2; by rewrite lookup_insert_eq | done].
Qed.

(** X2. A stream that reports a negative count does not stop the adapter: for
    a request below 2^31 it hands over as many bytes as were asked for,
    whatever [read] left in the zero-filled array, and reports them all. *)
Theorem inputStreamRead_negative_available abi ctx w s a s1 read_size :
  w_heap w !! input_stream ctx = Some (JInputStream s) →
  mid_available ctx = Some MID_available →
  mid_read ctx = Some MID_read →
  stream_available s = (a, s1) →
  jint_range a →
  a < 0 →
  0 ≤ read_size < 2 ^ 31 →
  ∃ output ctx' w',
    inputStreamRead abi ctx read_size w = Returned (output, read_size, ctx', w') ∧
    Z.of_nat (length output) = read_size ∧
    ∀ n_read elems s2,
      stream_read s1 (replicate (Z.to_nat read_size) x00) 0 read_size
        = (n_read, elems, s2) →
      output = resize (Z.to_nat read_size) x00 elems.
Proof.
  intros Hobj Hmid1 Hmid2 Ha Hrange Hneg Hr.
  assert (size_to_copy abi read_size (to_jint a) = read_size) as Hclamp.
  { rewrite to_jint_small by done. unfold size_to_copy.
    assert (read_size < to_size_t abi a) as Hlt.
    { unfold to_size_t, wrap_unsigned. unfold jint_range in Hrange.
      change (2 ^ 31) with 2147483648 in *.
      destruct (two_p_size_bits abi) as [E | E]; rewrite E;
        Z.div_mod_to_equations; lia. }
    destruct (Z.ltb_spec read_size (to_size_t abi a)); [| lia].
    apply to_jint_small. unfold jint_range. lia. }
  destruct (stream_read s1 (replicate (Z.to_nat read_size) x00) 0 read_size)
    as [[n_read elems] s2] eqn:Hread.
  pose proof (inputStreamRead_run abi ctx w s a s1 read_size Hobj Hmid1 Hmid2 Ha) as Hrun.
  cbv zeta in Hrun. rewrite Hclamp in Hrun.
  specialize (Hrun (proj1 Hr) n_read elems s2 Hread).
  assert (to_size_t abi read_size = read_size) as Hnn.
  { apply jint_size_t_small; [lia | unfold jint_range; lia]. }
  rewrite Hnn in Hrun.
  eexists _, _, _. split; [exact Hrun |].
  split; [rewrite length_resize; lia |].
  by intros ? ? ? [= <- <- <-].
Qed.

(** When the clamp is negative.  The comparison is made in [size_t] and the
    cast keeps 32 bits, so it takes a negative count and a request that is
    at least the count read as a [size_t], or has bit 31 set. *)
Lemma size_to_copy_negative_iff abi read_size avail_size :
  size_t_range abi read_size → jint_range avail_size →
  size_to_copy abi read_size avail_size < 0 ↔
  avail_size < 0 ∧
  (to_size_t abi avail_size ≤ read_size ∨ 2 ^ 31 ≤ read_size mod 2 ^ 32).
Proof.
  intros Hr Ha. unfold size_to_copy.
  destruct (Z.ltb_spec read_size (to_size_t abi avail_size)) as [Hlt | Hge].
  - assert (to_jint read_size < 0 ↔ 2 ^ 31 ≤ read_size mod 2 ^ 32) as Hcast.
    { unfold to_jint, wrap_signed.
      change (2 ^ (32 - 1)) with 2147483648. change (2 ^ 32) with 4294967296.
      change (2 ^ 31) with 2147483648.
      pose proof (Z.mod_pos_bound read_size 4294967296 eq_refl).
      destruct (Z.ltb_spec (read_size mod 4294967296) 2147483648); lia. }
    rewrite Hcast. split; [| intros [_ [? | ?]]; [lia | done]].
    intros Hbit. split; [| by right].
    destruct (Z.lt_ge_cases avail_size 0) as [? | Hpos]; [done |].
    rewrite jint_size_t_small in Hlt by done.
    unfold jint_range in Ha. change (2 ^ 31) with 2147483648 in *.
    change (2 ^ 32) with 4294967296 in *. destruct Hr.
    Z.div_mod_to_equations. lia.
  - split; [intros ?; split; [done | by left] | by intros [? _]].
Qed.

(** X3. [inputStreamRead] does not come back exactly when its clamp is
    negative: the array of that length cannot be made. *)
Theorem inputStreamRead_aborts_iff abi ctx w s a s1 read_size :
  w_heap w !! input_stream ctx = Some (JInputStream s) →
  mid_available ctx = Some MID_available →
  mid_read ctx = Some MID_read →
  stream_available s = (a, s1) →
  jint_range a →
  size_t_range abi read_size →
  (∃ why, inputStreamRead abi ctx read_size w = Aborted why) ↔
  a < 0 ∧ (to_size_t abi a ≤ read_size ∨ 2 ^ 31 ≤ read_size mod 2 ^ 32).
Proof.
  intros Hobj Hmid1 Hmid2 Ha Hrange Hr.
  rewrite <- (size_to_copy_negative_iff abi read_size a) by done.
  pose proof (inputStreamRead_run abi ctx w s a s1 read_size Hobj Hmid1 Hmid2 Ha) as Hrun.
  pose proof (inputStreamRead_aborts abi ctx w s a s1 read_size Hobj Hmid1 Ha) as Habort.
  cbv zeta in Hrun. rewrite (to_jint_small a) in Hrun, Habort by done.
  split.
  - intros [why Hwhy].
    destruct (Z.lt_ge_cases (size_to_copy abi read_size a) 0) as [? | Hn]; [done |].
    destruct (stream_read s1 (replicate (Z.to_nat (size_to_copy abi read_size a)) x00)
                0 (size_to_copy abi read_size a))
      as [[n_read elems] s2] eqn:Hread.
    specialize (Hrun Hn n_read elems s2 eq_refl). congruence.
  - intros Hneg. eexists. by apply Habort.
Qed.

(** ** A whole run of the library over the stream loader *)

Lemma bytes_asked_app (tr1 tr2 : list event) :
  bytes_asked (tr1 ++ tr2) = bytes_asked tr1 + bytes_asked tr2.
Proof.
  unfold bytes_asked. induction tr1 as [| e tr1 IH]; simpl; [done | lia].
Qed.

Lemma adapter_run_same abi ctx w w' :
  w_trace w' = w_trace w → w_heap w' = w_heap w → w_assets w' = w_assets w →
  adapter_run abi ctx w ctx w'.
Proof.
  intros Htrace Hheap Hassets. exists [].
  rewrite app_nil_r, Htrace, Hheap. cbn. rewrite Z.add_0_r. by repeat split.
Qed.

Lemma adapter_run_trans abi ctx1 w1 ctx2 w2 ctx3 w3 :
  adapter_run abi ctx1 w1 ctx2 w2 → adapter_run abi ctx2 w2 ctx3 w3 →
  adapter_run abi ctx1 w1 ctx3 w3.
Proof.
  intros (evs1 & Ht1 & Hev1 & His1 & Hthiz1 & Hma1 & Hmr1 & Hoff1 & Hheap1 & Has1)
         (evs2 & Ht2 & Hev2 & His2 & Hthiz2 & Hma2 & Hmr2 & Hoff2 & Hheap2 & Has2).
  exists (evs1 ++ evs2). rewrite His1 in *.
  split; [by rewrite Ht2, Ht1, app_assoc |].
  split; [by apply Forall_app |].
  repeat (split; [congruence |]).
  split.
  { rewrite Hoff2, bytes_asked_app. unfold to_size_t, wrap_unsigned in *.
    rewrite Z.add_assoc, <- (Zplus_mod_idemp_l (offset ctx1 + bytes_asked evs1)).
    rewrite <- Hoff1. by rewrite Zplus_mod_idemp_l. }
  split; [| congruence].
  intros r Hr. by rewrite Hheap2, Hheap1.
Qed.

Lemma inputStreamRead_adapter_run abi ctx read_size w output count ctx' w' :
  inputStreamRead abi ctx read_size w = Returned (output, count, ctx', w') →
  adapter_run abi ctx w ctx' w'.
Proof.
  intros (s & a & s1 & n_read & elems & s2 & Hobj & Ha & Hn & Hnn & Hread & -> & ->
          & -> & Hheap & Hassets & Hnative & b & Htrace)%inputStreamRead_inv.
  eexists. split; [exact Htrace |].
  split.
  { apply Forall_app. split.
    - apply Forall_cons_2; [left; eauto |].
      apply Forall_cons_2; [right; left; eauto | apply Forall_nil_2].
    - destruct (_ || _); [| apply Forall_nil_2].
      apply Forall_cons_2; [right; right; eauto | apply Forall_nil_2]. }
  repeat (split; [done |]).
  split.
  { cbn [offset set_offset]. rewrite bytes_asked_app.
    replace (bytes_asked _ + bytes_asked _)
      with (size_to_copy abi read_size (to_jint a)).
    - unfold to_size_t, wrap_unsigned. by rewrite Zmod_mod.
    - by destruct (_ || _); cbn; lia. }
  split; [| done].
  intros r Hr. by rewrite Hheap, lookup_insert_ne.
Qed.

Lemma inputStreamEof_adapter_run abi ctx w at_end ctx' w' :
  inputStreamEof ctx w = Returned (at_end, ctx', w') →
  adapter_run abi ctx w ctx' w'.
Proof.
  unfold inputStreamEof. intros H.
  apply bind_inv in H as (result & w1 & Hcall & H). injection H as _ <- <-.
  apply CallIntMethod_no_args_inv in Hcall as (s & a & s1 & Hobj & _ & _ & _ & ->).
  exists [StreamCall (input_stream ctx) MID_available []].
  split; [done |].
  split; [apply Forall_cons_2; [left; eauto | apply Forall_nil_2] |].
  repeat (split; [done |]).
  split; [cbn; by rewrite Z.add_0_r |].
  split; [| done].
  intros r Hr. cbn. by rewrite lookup_insert_ne.
Qed.

Lemma run_stream_loader_adapter_run abi ctx0 p ctx w context ctx' w' :
  run_loader abi (stream_loader abi ctx0) p ctx w = Returned (context, ctx', w') →
  adapter_run abi ctx w ctx' w'.
Proof.
  revert ctx w. induction p as [context0 n' | read_size k IH | k IH | k IH];
    intros ctx w; simpl; intros H.
  - apply bind_inv in H as (? & w1 & Hput & H). injection H as _ <- <-.
    injection Hput as _ <-. by apply adapter_run_same.
  - apply bind_inv in H as ([[output count] c1] & w1 & Hread & H).
    eapply adapter_run_trans; [by eapply inputStreamRead_adapter_run | by eapply IH].
  - apply bind_inv in H as ([at_end c1] & w1 & Heof & H).
    eapply adapter_run_trans; [by eapply inputStreamEof_adapter_run | by eapply IH].
  - apply bind_inv in H as (c1 & w1 & Hclose & H). injection Hclose as <- <-.
    by eapply IH.
Qed.

Lemma whisper_init_with_params_adapter_run abi ctx cparams w context ctx' w' :
  whisper_init_with_params abi (stream_loader abi ctx) cparams w =
    Returned (context, ctx', w') →
  adapter_run abi ctx (add_event WhisperInitWithParams w) ctx' w'.
Proof.
  unfold whisper_init_with_params. intros H.
  apply bind_inv in H as (? & w1 & Hemit & H). injection Hemit as _ <-.
  apply bind_inv in H as (n & w2 & Hget & H). injection Hget as _ <-.
  by eapply run_stream_loader_adapter_run.
Qed.

(** X4. However the library drives the stream loader, when
    [whisper_init_with_params] returns, all that crossed the boundary after
    the call itself are [available] and [read] on the one stream of the
    context and the adapter's log line; the context still names that stream
    and its methods, its offset has grown (as a [size_t]) by the bytes
    asked of the stream, and every other managed object and the assets are
    as they were. *)
Theorem whisper_init_with_params_stream_loader abi ctx cparams w context ctx' w' :
  whisper_init_with_params abi (stream_loader abi ctx) cparams w =
    Returned (context, ctx', w') →
  ∃ evs,
    w_trace w' = w_trace w ++ WhisperInitWithParams :: evs ∧
    Forall (adapter_event (input_stream ctx)) evs ∧
    input_stream ctx' = input_stream ctx ∧
    thiz ctx' = thiz ctx ∧
    mid_available ctx' = mid_available ctx ∧
    mid_read ctx' = mid_read ctx ∧
    to_size_t abi (offset ctx') = to_size_t abi (offset ctx + bytes_asked evs) ∧
    (∀ r, r ≠ input_stream ctx → w_heap w' !! r = w_heap w !! r) ∧
    w_assets w' = w_assets w.
Proof.
  intros (evs & Htrace & Hevs & His & Hthiz & Hma & Hmr & Hoff & Hheap & Hassets)
         %whisper_init_with_params_adapter_run.
  exists evs. cbn [w_trace add_event] in Htrace. rewrite <- app_assoc in Htrace.
  by repeat split.
Qed.

(** X5. [initContextFromInputStream] asks the stream once what is available
    before the library sees the loader; the library's run follows, and
    nothing but the adapter's events after it.  No other managed object and
    no asset changes. *)
Theorem initContextFromInputStream_probes_then_loads abi thiz0 stream_ref w handle w' :
  initContextFromInputStream abi thiz0 stream_ref w = Returned (handle, w') →
  ∃ evs,
    w_trace w' =
      w_trace w ++
      StreamCall stream_ref MID_available [] :: WhisperInitWithParams :: evs ∧
    Forall (adapter_event stream_ref) evs ∧
    (∀ r, r ≠ stream_ref → w_heap w' !! r = w_heap w !! r) ∧
    w_assets w' = w_assets w.
Proof.
  unfold initContextFromInputStream. intros H.
  apply bind_inv in H as (cls & w0 & Hcls & H).
  assert (w0 = w) as ->.
  { unfold GetObjectClass in Hcls.
    destruct (w_heap w !! stream_ref) as [[| |] |]; congruence. }
  apply bind_inv in H as ([at_end inp_ctx] & w1 & Heof & H).
  apply bind_inv in H as ([result_ptr inp_ctx'] & w2 & Hinit & H).
  injection H as _ <-.
  cbn [eof context stream_loader] in Heof.
  pose proof Heof as Hprobe. unfold inputStreamEof in Hprobe.
  apply bind_inv in Hprobe as (result & w1' & Hcall & Hprobe).
  injection Hprobe as _ <- <-.
  apply CallIntMethod_no_args_inv in Hcall as (s & a & s1 & Hobj & _ & _ & _ & ->).
  apply whisper_init_with_params_adapter_run in Hinit
    as (evs & Htrace & Hevs & _ & _ & _ & _ & _ & Hheap & Hassets).
  cbn [input_stream w_trace w_heap w_assets set_heap add_event] in *.
  exists evs. split; [by rewrite Htrace, <- !app_assoc |].
  split; [done |]. split; [| done].
  intros r Hr. by rewrite Hheap, lookup_insert_ne.
Qed.

End StreamAdapter.

Section OverByteArrayInputStream.
Context {W : WhisperLib}.

(** What [java.io.ByteArrayInputStream.read] leaves in a zero-filled array
    of [m] bytes when asked for [m] of them, [m] no more than remain: the
    next [m] bytes of the buffer. *)
Lemma ByteArrayInputStream_read_zeros (s : ByteArrayInputStream) (m : nat) :
  (m ≤ length (buf s) - pos s)%nat →
  ∃ n_read elems,
    ByteArrayInputStream_read s (replicate m x00) 0 (Z.of_nat m) =
      (n_read, elems, {| buf := buf s; pos := pos s + m |}) ∧
    resize m x00 elems = take m (drop (pos s) (buf s)).
Proof.
  intros Hm. unfold ByteArrayInputStream_read.
  destruct (Nat.eqb_spec (length (buf s) - pos s) 0) as [Hzero | Hrest].
  - assert (m = 0)%nat as -> by lia. eexists _, _.
    split; [rewrite Nat.add_0_r; by destruct s | done].
  - rewrite Z.min_l by lia.
    destruct (Z.leb_spec (Z.of_nat m) 0) as [Hle | Hpos].
    + assert (m = 0)%nat as -> by lia. eexists _, _.
      split; [rewrite Nat.add_0_r; by destruct s | done].
    + rewrite Nat2Z.id. eexists _, _. split; [reflexivity |].
      change (Z.to_nat 0) with 0%nat. rewrite take_0, Nat.add_0_l.
      rewrite drop_replicate, Nat.sub_diag. cbn [replicate app].
      rewrite app_nil_r. apply resize_all_alt.
      rewrite length_take, length_drop. lia.
Qed.

(** X6. Through the adapter a [ByteArrayInputStream] gives what it holds: a
    read of [read_size] bytes hands over the next
    [min read_size remaining] bytes of the buffer, in order, reports that
    count, and leaves the stream and the offset that far on. *)
Theorem inputStreamRead_delivers_buffer
    abi ctx (w : world (IS := ByteArrayStream)) (s : ByteArrayInputStream) read_size :
  w_heap w !! input_stream ctx = Some (JInputStream (IS := ByteArrayStream) s) →
  mid_available ctx = Some MID_available →
  mid_read ctx = Some MID_read →
  Z.of_nat (length (buf s)) < 2 ^ 31 →
  size_t_range abi read_size →
  let n := Z.to_nat (Z.min read_size (Z.of_nat (length (buf s) - pos s))) in
  ∃ ctx' w',
    inputStreamRead (IS := ByteArrayStream) abi ctx read_size w =
      Returned (take n (drop (pos s) (buf s)), Z.of_nat n, ctx', w') ∧
    offset ctx' = to_size_t abi (offset ctx + Z.of_nat n) ∧
    w_heap w' =
      <[input_stream ctx :=
          JInputStream (IS := ByteArrayStream) {| buf := buf s; pos := pos s + n |}]>
        (w_heap w).
Proof.
  intros Hobj Hmid1 Hmid2 Hlen Hr n.
  set (a := Z.of_nat (length (buf s) - pos s)).
  assert (jint_range a ∧ 0 ≤ a) as [Hrange H0].
  { unfold jint_range, a. change (2 ^ 31) with 2147483648 in *. lia. }
  assert (size_to_copy abi read_size (to_jint a) = Z.of_nat n) as Hclamp.
  { rewrite to_jint_small by done. rewrite size_to_copy_min by done.
    unfold n. fold a. destruct Hr. lia. }
  destruct (ByteArrayInputStream_read_zeros s n) as (n_read & elems & Hread & Helems).
  { unfold n. fold a. unfold a. lia. }
  pose proof (inputStreamRead_run (IS := ByteArrayStream) abi ctx w s a s read_size
                Hobj Hmid1 Hmid2 eq_refl) as Hrun.
  cbv zeta in Hrun. rewrite Hclamp, Nat2Z.id in Hrun.
  specialize (Hrun (Nat2Z.is_nonneg n) n_read elems _ Hread).
  rewrite Helems in Hrun.
  assert (to_size_t abi (Z.of_nat n) = Z.of_nat n) as Hnn.
  { apply jint_size_t_small; [lia |]. rewrite <- Hclamp.
    apply size_to_copy_range, to_jint_range. }
  rewrite Hnn in Hrun.
  eexists _, _. split; [exact Hrun |]. by split.
Qed.

End OverByteArrayInputStream.

Section AssetsAndHandles.
Context {W : WhisperLib} {IS : InputStream}.

(** ** The asset-backed loader *)

(** X7. [asset_read] hands the loader the [int] of [AAsset_read] converted to
    [size_t], whatever it is.  A count that is not negative arrives as it
    is.  The negative answer of a failed read arrives as a count of
    2^w + n (w the width of [size_t]: 2^w - 1 for -1), which is above every
    request below 2^w - 2^31: the loader is told of more bytes than it
    asked for, not of an error.  The bytes and the asset are passed on as
    [AAsset_read] left them, and nothing else changes. *)
Theorem asset_read_converts_the_count abi {A : Type}
    (ndk_read : A → Z → list byte * Z * A) ctx read_size w output n ctx' :
  ndk_read ctx read_size = (output, n, ctx') →
  jint_range n →
  size_t_range abi read_size →
  asset_read abi = asset_read_via AAsset_read abi ∧
  ∃ count,
    asset_read_via ndk_read abi ctx read_size w = Returned (output, count, ctx', w) ∧
    (0 ≤ n → count = n) ∧
    (n < 0 →
     count = 2 ^ size_bits abi + n ∧
     (read_size < 2 ^ size_bits abi - 2 ^ 31 → read_size < count)).
Proof.
  intros Hread Hn Hr. split; [reflexivity |].
  exists (to_size_t abi n). unfold asset_read_via. rewrite Hread.
  split; [reflexivity |].
  unfold jint_range in Hn. unfold to_size_t, wrap_unsigned.
  assert (2 ^ 32 ≤ 2 ^ size_bits abi) as Hbits by (destruct abi; simpl; lia).
  change (2 ^ 32) with 4294967296 in Hbits.
  change (2 ^ 31) with 2147483648 in *.
  split.
  - intros Hpos. apply Z.mod_small. lia.
  - intros Hneg.
    assert (n mod 2 ^ size_bits abi = 2 ^ size_bits abi + n) as ->.
    { symmetry. apply (Z.mod_unique_pos _ _ (-1)); lia. }
    split; [done | lia].
Qed.



(** ** A handle through its life *)

Lemma freeContext_of_pointer abi p w :
  pointer_range abi p →
  freeContext abi (to_jlong p) w = Returned (tt, set_native (lib_free p (w_native w)) w).
Proof.
  intros Hp. unfold freeContext. by rewrite pointer_jlong_roundtrip.
Qed.

(** X9. The handle [initContext] returns stands for the context the library
    made, whatever its address: [fullTranscribe] on the handle runs
    [whisper_full] on that context, and [freeContext] on the handle frees
    that context. *)
Theorem handle_addresses_its_context
    abi model_path w handle w1 num_threads audio_data samples :
  initContext abi model_path w = Returned (handle, w1) →
  w_heap w1 !! audio_data = Some (JFloatArray samples) →
  let context :=
    to_pointer abi
      (fst (lib_init_from_file_with_params model_path lib_context_default_params
              (w_native w))) in
  ∃ text w2,
    fullTranscribe abi handle num_threads audio_data w1 = Returned (text, w2) ∧
    whisper_full_calls (w_trace w2) =
      whisper_full_calls (w_trace w1) ++
      [(context, fullTranscribe_params num_threads, samples,
        Z.of_nat (length samples))] ∧
    freeContext abi handle w2 =
      Returned (tt, set_native (lib_free context (w_native w2)) w2).
Proof.
  intros Hinit Harr context.
  assert (handle = to_jlong context) as ->.
  { unfold initContext, GetStringUTFChars, ReleaseStringUTFChars,
      whisper_init_from_file_with_params, emit, get_native, put_native,
      mbind, jni_bind, mret, jni_ret in Hinit.
    cbn [w_native add_event] in Hinit. unfold context.
    destruct (lib_init_from_file_with_params _ _ _) as [c n'].
    by injection Hinit as <- _. }
  assert (pointer_range abi context) as Hrange by apply to_pointer_range.
  pose proof (pointer_jlong_roundtrip abi context Hrange) as Hback.
  destruct (lib_full context (fullTranscribe_params num_threads) samples
              (Z.of_nat (length samples)) (lib_reset_timings context (w_native w1)))
    as [result n1] eqn:Hfull.
  rewrite <- Hback in Hfull at 1 2.
  destruct (fullTranscribe_run abi (to_jlong context) num_threads audio_data samples
              w1 result n1 Harr Hfull) as (logs1 & logs2 & Hlogs1 & Hlogs2 & Hrun).
  rewrite Hback in Hrun.
  eexists _, _. split; [exact Hrun |]. split.
  - cbn [w_trace]. rewrite !whisper_full_calls_app.
    rewrite (whisper_full_calls_logs logs1), (whisper_full_calls_logs logs2) by done.
    done.
  - by apply freeContext_of_pointer.
Qed.

End AssetsAndHandles.

Section Transcription.
Context {W : WhisperLib} {IS : InputStream}.

Lemma string_concat_all_empty (texts : list string) :
  Forall (λ t, t = "") texts → String.concat "" texts = "".
Proof.
  induction 1 as [| t texts -> _ IH]; [done |].
  by rewrite string_concat_cons, IH.
Qed.

(** X10. A run that succeeds without text cannot be told from one that failed:
    when [whisper_full] answers 0 and leaves no segment, or only segments
    whose text is NULL or empty, [fullTranscribe] returns the empty string,
    as it does on failure. *)
Theorem fullTranscribe_silence_returns_empty
    abi context_ptr num_threads audio_data samples w n1 :
  w_heap w !! audio_data = Some (JFloatArray samples) →
  lib_full (to_pointer abi context_ptr) (fullTranscribe_params num_threads)
    samples (Z.of_nat (length samples))
    (lib_reset_timings (to_pointer abi context_ptr) (w_native w)) = (0, n1) →
  (∀ i, 0 ≤ i < to_jint (lib_full_n_segments (to_pointer abi context_ptr) n1) →
        default "" (lib_full_get_segment_text (to_pointer abi context_ptr) i n1) = "") →
  ∃ w',
    fullTranscribe abi context_ptr num_threads audio_data w = Returned (Some "", w').
Proof.
  intros Harr Hfull Hquiet.
  destruct (fullTranscribe_run abi context_ptr num_threads audio_data samples w
              0 n1 Harr Hfull) as (logs1 & logs2 & _ & _ & Hrun).
  change (negb (to_jint 0 =? 0)) with false in Hrun. cbv iota in Hrun.
  assert (concatenated_segment_texts (to_pointer abi context_ptr) n1 = "") as Hempty.
  { unfold concatenated_segment_texts. apply string_concat_all_empty.
    apply Forall_fmap, Forall_seqZ. intros i Hi. apply Hquiet. lia. }
  rewrite Hempty in Hrun. eexists. exact Hrun.
Qed.

(** X11. The order of the library's run and the release of the samples in one
    call of [fullTranscribe].  Of the calls that the trace records, namely
    log lines, [whisper_reset_timings], [whisper_full] and the release of a
    float array, the call makes these: [whisper_reset_timings] on the
    context, two log lines, [whisper_full] on the array's samples, the log
    line of its result code (the caller never gets the code); after these
    no further [whisper_reset_timings] or [whisper_full], and one release,
    of the array, in mode [JNI_ABORT].  So the timings are reset before the
    run, and the samples are released only after the run has come back. *)
Theorem fullTranscribe_runs_then_releases
    abi context_ptr num_threads audio_data samples w result n1 :
  let context := to_pointer abi context_ptr in
  let params := fullTranscribe_params num_threads in
  w_heap w !! audio_data = Some (JFloatArray samples) →
  lib_full context params samples (Z.of_nat (length samples))
    (lib_reset_timings context (w_native w)) = (result, n1) →
  ∃ text w' rest,
    fullTranscribe abi context_ptr num_threads audio_data w = Returned (text, w') ∧
    w_trace w' =
      w_trace w ++
      [WhisperResetTimings context;
       Log ANDROID_LOG_INFO "About to run whisper_full with %d samples, %d threads"
         [ArgInt (Z.of_nat (length samples)); ArgInt num_threads];
       Log ANDROID_LOG_INFO "Whisper params: realtime=%d, timestamps=%d, context=%d"
         [ArgInt 0; ArgInt 0; ArgInt 1];
       WhisperFull context params samples (Z.of_nat (length samples));
       Log ANDROID_LOG_INFO "whisper_full returned: %d" [ArgInt (to_jint result)]] ++
      rest ∧
    whisper_full_calls rest = [] ∧
    Forall (λ e, ∀ c, e ≠ WhisperResetTimings c) rest ∧
    float_array_releases rest = [(audio_data, JNI_ABORT)].
Proof.
  intros context params Harr Hfull.
  assert (∀ logs,
            Forall is_log logs →
            whisper_full_calls (logs ++ [ReleaseFloatArray audio_data JNI_ABORT]) = [] ∧
            Forall (λ e, ∀ c, e ≠ WhisperResetTimings c)
              (logs ++ [ReleaseFloatArray audio_data JNI_ABORT]) ∧
            float_array_releases (logs ++ [ReleaseFloatArray audio_data JNI_ABORT]) =
              [(audio_data, JNI_ABORT)]) as Hrest.
  { intros logs Hlogs.
    rewrite whisper_full_calls_app, float_array_releases_app,
      (whisper_full_calls_logs _ Hlogs), (float_array_releases_logs _ Hlogs).
    split; [reflexivity |]. split; [| reflexivity].
    apply Forall_app. split.
    - eapply Forall_impl; [exact Hlogs |].
      intros e (prio & fmt & args & ->) c. discriminate.
    - apply Forall_cons_2; [intros c; discriminate | apply Forall_nil_2]. }
  unfold fullTranscribe. fold context. fold params.
  unfold GetFloatArrayElements, GetArrayLength, whisper_reset_timings,
    whisper_full, whisper_get_timings, whisper_full_n_segments, log_timings,
    ReleaseFloatArrayElements, NewStringUTF, LOGI, emit, get_native, put_native.
  unfold mbind, jni_bind, mret, jni_ret.
  cbn [w_heap w_native w_trace w_assets add_event set_native set_heap].
  rewrite Harr. cbv beta iota.
  cbn [w_heap w_native w_trace w_assets add_event set_native set_heap].
  rewrite ?Harr. cbv beta iota.
  cbn [w_heap w_native w_trace w_assets add_event set_native set_heap].
  rewrite Hfull. cbv beta iota.
  cbn [w_heap w_native w_trace w_assets add_event set_native set_heap].
  change (Z.b2z (print_realtime params)) with 0.
  change (Z.b2z (print_timestamps params)) with 0.
  change (Z.b2z (no_context params)) with 1.
  destruct (negb (to_jint result =? 0)).
  - change (JNI_ABORT =? JNI_ABORT) with true. cbv iota.
    cbv [add_event set_native w_heap w_native w_trace w_assets].
    rewrite <- !app_assoc. cbn [app].
    eexists _, _, ([_] ++ [ReleaseFloatArray audio_data JNI_ABORT]).
    split; [reflexivity |].
    cbn [app]. split; [reflexivity |].
    apply (Hrest [_]).
    repeat (apply Forall_cons_2; [apply is_log_Log |]). apply Forall_nil_2.
  - rewrite concat_segments_run.
    change (JNI_ABORT =? JNI_ABORT) with true. cbv iota.
    cbv [add_event set_native w_heap w_native w_trace w_assets].
    rewrite <- !app_assoc. cbn [app].
    eexists _, _, ([_; _; _; _; _; _; _; _; _; _; _; _; _] ++
                   [ReleaseFloatArray audio_data JNI_ABORT]).
    split; [reflexivity |].
    cbn [app]. split; [reflexivity |].
    apply (Hrest [_; _; _; _; _; _; _; _; _; _; _; _; _]).
    repeat (apply Forall_cons_2; [apply is_log_Log |]). apply Forall_nil_2.
Qed.

End Transcription.

(* ================================================================== *)
(** * The further properties at work *)
(* ================================================================== *)

Lemma inputStreamRead_frame_witness :
  ∃ output count ctx' w',
    inputStreamRead (W := StubWhisper) (IS := ByteArrayStream) LP64
      demo_context 2 demo_world = Returned (output, count, ctx', w') ∧
    Z.of_nat (length output) = count ∧
    dom (w_heap w') = dom (w_heap demo_world) ∧
    w_native w' = w_native demo_world.
Proof.
  destruct (inputStreamRead (W := StubWhisper) (IS := ByteArrayStream) LP64
              demo_context 2 demo_world)
    as [[[[output count] ctx'] w'] | why] eqn:Hrun;
    [| vm_compute in Hrun; discriminate Hrun].
  destruct (inputStreamRead_frame (W := StubWhisper) (IS := ByteArrayStream)
              LP64 demo_context 2 demo_world output count ctx' w' Hrun)
    as (Hlen & _ & Hdom & _ & _ & _ & Hnative).
  exists output, count, ctx', w'. split; [reflexivity |].
  split; [exact Hlen |]. split; [exact Hdom | exact Hnative].
Defined.

Lemma inputStreamRead_negative_available_witness :
  ∃ output ctx' w',
    inputStreamRead (W := StubWhisper) (IS := StubStream) LP64
      demo_context 4 negative_world = Returned (output, 4, ctx', w') ∧
    Z.of_nat (length output) = 4.
Proof.
  destruct (inputStreamRead_negative_available (W := StubWhisper) (IS := StubStream)
              LP64 demo_context negative_world negative_stream (-1) negative_stream 4)
    as (output & ctx' & w' & Hrun & Hlen & _).
  - reflexivity.
  - reflexivity.
  - reflexivity.
  - reflexivity.
  - unfold jint_range. lia.
  - lia.
  - lia.
  - exists output, ctx', w'. split; [exact Hrun | exact Hlen].
Defined.

Lemma inputStreamRead_aborts_iff_witness :
  ∃ why,
    inputStreamRead (W := StubWhisper) (IS := StubStream) LP64
      demo_context (2 ^ 31) negative_world = Aborted why.
Proof.
  apply (inputStreamRead_aborts_iff (W := StubWhisper) (IS := StubStream)
           LP64 demo_context negative_world negative_stream (-1) negative_stream
           (2 ^ 31)).
  - reflexivity.
  - reflexivity.
  - reflexivity.
  - reflexivity.
  - unfold jint_range. lia.
  - unfold size_t_range. simpl. lia.
  - split; [lia |]. right. change (2 ^ 31 mod 2 ^ 32) with (2 ^ 31). lia.
Defined.

Lemma whisper_init_with_params_stream_loader_witness :
  ∃ context ctx' w' evs,
    whisper_init_with_params (W := StubWhisper) (IS := ByteArrayStream) LP64
      (stream_loader LP64 demo_context) tt demo_world =
      Returned (context, ctx', w') ∧
    w_trace w' = w_trace demo_world ++ WhisperInitWithParams :: evs ∧
    Forall (adapter_event 1%positive) evs ∧
    to_size_t LP64 (offset ctx') = to_size_t LP64 (0 + bytes_asked evs).
Proof.
  destruct (whisper_init_with_params (W := StubWhisper) (IS := ByteArrayStream) LP64
              (stream_loader LP64 demo_context) tt demo_world)
    as [[[context ctx'] w'] | why] eqn:Hrun;
    [| vm_compute in Hrun; discriminate Hrun].
  destruct (whisper_init_with_params_stream_loader (W := StubWhisper)
              (IS := ByteArrayStream) LP64 demo_context tt demo_world
              context ctx' w' Hrun)
    as (evs & Htrace & Hevs & _ & _ & _ & _ & Hoff & _).
  exists context, ctx', w', evs. split; [reflexivity |].
  split; [exact Htrace |]. split; [exact Hevs | exact Hoff].
Defined.

Lemma initContextFromInputStream_probes_then_loads_witness :
  ∃ handle w' evs,
    initContextFromInputStream (W := StubWhisper) (IS := ByteArrayStream) LP64
      9%positive 1%positive demo_world = Returned (handle, w') ∧
    w_trace w' =
      w_trace demo_world ++
      StreamCall 1%positive MID_available [] :: WhisperInitWithParams :: evs ∧
    Forall (adapter_event 1%positive) evs.
Proof.
  destruct (initContextFromInputStream (W := StubWhisper) (IS := ByteArrayStream)
              LP64 9%positive 1%positive demo_world)
    as [[handle w'] | why] eqn:Hrun;
    [| vm_compute in Hrun; discriminate Hrun].
  destruct (initContextFromInputStream_probes_then_loads (W := StubWhisper)
              (IS := ByteArrayStream) LP64 9%positive 1%positive demo_world
              handle w' Hrun) as (evs & Htrace & Hevs & _).
  exists handle, w', evs. split; [reflexivity |]. split; [exact Htrace | exact Hevs].
Defined.

(** Five bytes are left and seven are asked for: the five come, in order. *)
Lemma inputStreamRead_delivers_buffer_witness :
  ∃ ctx' w',
    inputStreamRead (W := StubWhisper) (IS := ByteArrayStream) LP64
      demo_context 7 demo_world =
      Returned ([x67; x67; x6d; x6c; x01], 5, ctx', w') ∧
    offset ctx' = 5.
Proof.
  destruct (inputStreamRead_delivers_buffer (W := StubWhisper) LP64 demo_context
              demo_world {| buf := stub_magic ++ [x01]; pos := 0 |} 7)
    as (ctx' & w' & Hrun & Hoff & _).
  - reflexivity.
  - reflexivity.
  - reflexivity.
  - simpl. lia.
  - unfold size_t_range. simpl. lia.
  - exists ctx', w'. split; [exact Hrun | exact Hoff].
Defined.

Lemma asset_read_converts_the_count_witness :
  asset_read_via (W := StubWhisper) (IS := ByteArrayStream)
    (λ (a : AAsset) (_ : Z), ([], -1, a)) LP64
    {| asset_data := stub_magic; asset_pos := 1 |} 7 demo_world =
    Returned ([], 18446744073709551615,
              {| asset_data := stub_magic; asset_pos := 1 |}, demo_world) ∧
  7 < 18446744073709551615.
Proof.
  destruct (asset_read_converts_the_count (W := StubWhisper) (IS := ByteArrayStream)
              LP64 (λ (a : AAsset) (_ : Z), ([], -1, a))
              {| asset_data := stub_magic; asset_pos := 1 |} 7 demo_world
              [] (-1) {| asset_data := stub_magic; asset_pos := 1 |})
    as (_ & count & Hrun & _ & Hneg).
  - reflexivity.
  - unfold jint_range. simpl. lia.
  - unfold size_t_range. simpl. lia.
  - destruct Hneg as [-> Habove]; [lia |].
    split; [exact Hrun | apply Habove; simpl; lia].
Defined.


Lemma handle_addresses_its_context_witness :
  ∃ text w2,
    fullTranscribe (W := StubWhisper) (IS := ByteArrayStream) LP64
      (to_jlong stub_context) 8 5%positive
      (set_native (W := StubWhisper) (IS := ByteArrayStream) {| stub_segments := [] |}
         (add_event (WhisperInitFromFile "/data/ggml-tiny.bin") demo_world)) =
      Returned (text, w2) ∧
    whisper_full_calls (w_trace w2) =
      [(stub_context, fullTranscribe_params 8,
        [0x3DCCCCCD; 0xBE4CCCCD; 0x3E99999A], 3)] ∧
    freeContext LP64 (to_jlong stub_context) w2 =
      Returned (tt, set_native (lib_free stub_context (w_native w2)) w2).
Proof.
  apply (handle_addresses_its_context (W := StubWhisper) (IS := ByteArrayStream)
           LP64 "/data/ggml-tiny.bin" demo_world (to_jlong stub_context)
           (set_native (W := StubWhisper) (IS := ByteArrayStream)
              {| stub_segments := [] |}
              (add_event (WhisperInitFromFile "/data/ggml-tiny.bin") demo_world))
           8 5%positive [0x3DCCCCCD; 0xBE4CCCCD; 0x3E99999A]).
  - reflexivity.
  - reflexivity.
Defined.

Lemma fullTranscribe_silence_returns_empty_witness :
  ∃ w',
    fullTranscribe (W := SilentWhisper) (IS := ByteArrayStream) LP64
      (to_jlong stub_context) 8 5%positive silent_world = Returned (Some "", w').
Proof.
  apply (fullTranscribe_silence_returns_empty (W := SilentWhisper)
           (IS := ByteArrayStream) LP64 (to_jlong stub_context) 8 5%positive
           [0x3DCCCCCD; 0xBE4CCCCD; 0x3E99999A] silent_world
           {| stub_segments := [None; Some ""] |}).
  - reflexivity.
  - reflexivity.
  - intros i Hi. change (to_jint _) with 2 in Hi.
    assert (i = 0 ∨ i = 1) as [-> | ->] by lia; reflexivity.
Defined.

Lemma fullTranscribe_runs_then_releases_witness :
  ∃ text w' rest,
    fullTranscribe (W := StubWhisper) (IS := ByteArrayStream) LP64
      (to_jlong stub_context) 8 6%positive demo_world = Returned (text, w') ∧
    w_trace w' =
      [WhisperResetTimings stub_context;
       Log ANDROID_LOG_INFO "About to run whisper_full with %d samples, %d threads"
         [ArgInt 0; ArgInt 8];
       Log ANDROID_LOG_INFO "Whisper params: realtime=%d, timestamps=%d, context=%d"
         [ArgInt 0; ArgInt 0; ArgInt 1];
       WhisperFull stub_context (fullTranscribe_params 8) [] 0;
       Log ANDROID_LOG_INFO "whisper_full returned: %d" [ArgInt (-7)]] ++
      rest ∧
    float_array_releases rest = [(6%positive, JNI_ABORT)].
Proof.
  destruct (fullTranscribe_runs_then_releases (W := StubWhisper) (IS := ByteArrayStream)
              LP64 (to_jlong stub_context) 8 6%positive [] demo_world (-7)
              {| stub_segments := [] |} eq_refl eq_refl)
    as (text & w' & rest & Hrun & Htrace & _ & _ & Hrelease).
  exists text, w', rest. split; [exact Hrun |]. split; [exact Htrace | exact Hrelease].
Defined.
